(** * Domain-file merging of the chatbot trainer ([bot/train.py])

    A shallow embedding of [Training.get_domain_file]: the YAML fragments
    found in the domains directory are loaded one after the other, folded
    into the five-key [data] dictionary with [update], the sets are turned
    into lists and the document is dumped into a fresh temporary file.

    - Python values are modelled by the type [yaml], what [yaml.safe_load]
      returns: [None], booleans, integers, strings, lists, dictionaries
      and sets.  Floats, timestamps and the other tagged values are left
      out.
    - Exceptions are values of [result]; a [for] loop is [for_each].
    - The file system is explicit state: the entries of the domains
      directory and the files of the temporary directory.
    - PyYAML is not part of the repository: the text of a file, the loader
      and the dumper are parameters of the section [Merge], and so is the
      order in which a set is enumerated. *)

From stdpp Require Import base option list strings gmap.
From Stdlib Require Import ZArith Ascii.

Set Warnings "-register-all".

Open Scope string_scope.
Open Scope list_scope.

(** ** Exceptions *)

Inductive exn : Type :=
| YAMLError        (* yaml.safe_load on a malformed document *)
| AttributeError   (* .items() or .update() on an object without it *)
| KeyError         (* data[k] for a key that data does not have *)
| TypeError        (* iterating a non-iterable, hashing a list or dict *)
| ValueError.      (* dict.update with an element that is not a pair *)

Inductive result (A : Type) : Type :=
| Ok (a : A)
| Raise (e : exn).
Arguments Ok {A} a.
Arguments Raise {A} e.

#[global] Instance result_ret : MRet result := fun _ a => Ok a.
#[global] Instance result_bind : MBind result := fun _ _ f r =>
  match r with
  | Ok a => f a
  | Raise e => Raise e
  end.

#[global] Instance result_fmap : FMap result := fun _ _ f r =>
  match r with
  | Ok a => Ok (f a)
  | Raise e => Raise e
  end.

Definition is_ok {A} (r : result A) : bool :=
  match r with Ok _ => true | Raise _ => false end.

(** A [for] loop whose body may raise: the state is threaded through the
    elements from left to right and the first exception leaves the loop. *)
Fixpoint for_each {S X : Type} (body : S → X → result S) (s : S) (xs : list X)
  : result S :=
  match xs with
  | [] => Ok s
  | x :: xs' => s' ← body s x; for_each body s' xs'
  end.

(** ** Python values *)

Inductive yaml : Type :=
| YNone
| YBool (b : bool)
| YInt (z : Z)
| YStr (s : string)
| YList (l : list yaml)
| YDict (kvs : list (yaml * yaml))
| YSet (s : list yaml).

(** [if yaml_data:] *)
Definition truthy (v : yaml) : bool :=
  match v with
  | YNone => false
  | YBool b => b
  | YInt z => negb (Z.eqb z 0)
  | YStr s => negb (String.eqb s "")
  | YList l => negb (bool_decide (l = []))
  | YDict kvs => negb (bool_decide (kvs = []))
  | YSet s => negb (bool_decide (s = []))
  end.

(** Hashing and equality of keys.  Lists, dictionaries and sets are
    unhashable;
    [True == 1] and [False == 0], so a boolean and an integer can be the
    same key. *)
Inductive hkey : Type :=
| HNone
| HNum (z : Z)
| HStr (s : string).

#[global] Instance hkey_eq_dec : EqDecision hkey.
Proof. solve_decision. Defined.

Definition py_key (v : yaml) : option hkey :=
  match v with
  | YNone => Some HNone
  | YBool b => Some (HNum (if b then 1%Z else 0%Z))
  | YInt z => Some (HNum z)
  | YStr s => Some (HStr s)
  | YList _ | YDict _ | YSet _ => None
  end.

Definition hashable (v : yaml) : bool := bool_decide (is_Some (py_key v)).

(** The characters of a string, each as a string of length one. *)
Fixpoint chars (s : string) : list yaml :=
  match s with
  | EmptyString => []
  | String c s' => YStr (String c EmptyString) :: chars s'
  end.

(** [iter(v)]: what a [for] over [v] goes through. *)
Definition py_iter (v : yaml) : result (list yaml) :=
  match v with
  | YList l => Ok l
  | YStr s => Ok (chars s)
  | YDict kvs => Ok (kvs.*1)
  | YSet s => Ok s
  | YNone | YBool _ | YInt _ => Raise TypeError
  end.

(** [v.items()] *)
Definition py_items (v : yaml) : result (list (yaml * yaml)) :=
  match v with
  | YDict kvs => Ok kvs
  | _ => Raise AttributeError
  end.

(** ** Sets

    A set is the list of its elements, pairwise different as keys.  The
    order in which [list(s)] enumerates them is not the order kept here, see
    [set_order] below. *)

Definition set_mem (k : hkey) (s : list yaml) : bool :=
  bool_decide (Some k ∈ py_key <$> s).

Definition set_add (s : list yaml) (x : yaml) : result (list yaml) :=
  match py_key x with
  | None => Raise TypeError
  | Some k => if set_mem k s then Ok s else Ok (s ++ [x])
  end.

(** [s.update(v)] *)
Definition set_update (s : list yaml) (v : yaml) : result (list yaml) :=
  xs ← py_iter v; for_each set_add s xs.

(** ** Dictionaries

    A dictionary is the list of its items in insertion order. Assigning to
    a key that is present keeps the key object and its position. *)

Fixpoint dict_set (d : list (yaml * yaml)) (hk : hkey) (k v : yaml)
  : list (yaml * yaml) :=
  match d with
  | [] => [(k, v)]
  | (k0, v0) :: d' =>
      if decide (py_key k0 = Some hk) then (k0, v) :: d'
      else (k0, v0) :: dict_set d' hk k v
  end.

(** [d[k] = v] *)
Definition dict_setitem (d : list (yaml * yaml)) (kv : yaml * yaml)
  : result (list (yaml * yaml)) :=
  match py_key kv.1 with
  | None => Raise TypeError
  | Some hk => Ok (dict_set d hk kv.1 kv.2)
  end.

(** [d[k]], as an option *)
Fixpoint dict_get (d : list (yaml * yaml)) (hk : hkey) : option yaml :=
  match d with
  | [] => None
  | (k0, v0) :: d' =>
      if decide (py_key k0 = Some hk) then Some v0 else dict_get d' hk
  end.

(** An element of the sequence given to [dict.update] is read as a
    key/value pair: it has to be iterable and of length two. *)
Definition as_pair (e : yaml) : result (yaml * yaml) :=
  xs ← py_iter e;
  match xs with
  | [a; b] => Ok (a, b)
  | _ => Raise ValueError
  end.

(** [d.update(v)]: a mapping is merged item by item, anything else is
    iterated as a sequence of pairs. *)
Definition dict_update (d : list (yaml * yaml)) (v : yaml)
  : result (list (yaml * yaml)) :=
  match v with
  | YDict kvs => for_each dict_setitem d kvs
  | _ =>
      xs ← py_iter v;
      for_each (fun d e => p ← as_pair e; dict_setitem d p) d xs
  end.

(** ** The [data] dictionary *)

Inductive container : Type :=
| CDict (d : list (yaml * yaml))
| CSet (s : list yaml)
| CList (l : list yaml).

Definition data_t : Type := list (string * container).

(** Lines 50-56. *)
Definition initial_data : data_t :=
  [ ("slots", CDict []);
    ("entities", CSet []);
    ("intents", CSet []);
    ("templates", CDict []);
    ("actions", CSet []) ].

Definition domain_keys : list string :=
  ["slots"; "entities"; "intents"; "templates"; "actions"].

Definition set_keys : list string := ["entities"; "intents"; "actions"].
Definition dict_keys : list string := ["slots"; "templates"].

Fixpoint data_lookup (data : data_t) (name : string) : option container :=
  match data with
  | [] => None
  | (n, c) :: data' => if decide (n = name) then Some c else data_lookup data' name
  end.

(** [data[k]] for a key [k] read from a fragment: the key of [data] that
    [k] is equal to, and the object under it. *)
Definition data_get (data : data_t) (k : yaml) : result (string * container) :=
  match py_key k with
  | None => Raise TypeError
  | Some (HStr name) =>
      match data_lookup data name with
      | Some c => Ok (name, c)
      | None => Raise KeyError
      end
  | Some _ => Raise KeyError
  end.

(** The object under [name] after it was changed in place; [data] keeps
    its keys. *)
Fixpoint data_set (data : data_t) (name : string) (c : container) : data_t :=
  match data with
  | [] => []
  | (n, c0) :: data' =>
      if decide (n = name) then (n, c) :: data'
      else (n, c0) :: data_set data' name c
  end.

(** [c.update(v)], dispatched on what [c] is *)
Definition container_update (c : container) (v : yaml) : result container :=
  match c with
  | CDict d => CDict <$> dict_update d v
  | CSet s => CSet <$> set_update s v
  | CList _ => Raise AttributeError
  end.

(** Lines 64-65: [for k, v in yaml_data.items(): data[k].update(v)] *)
Definition merge_item (data : data_t) (kv : yaml * yaml) : result data_t :=
  entry ← data_get data kv.1;
  c' ← container_update entry.2 kv.2;
  Ok (data_set data entry.1 c').

(** Lines 63-65: an empty file, an empty mapping and every other falsy
    document are skipped. *)
Definition merge_fragment (data : data_t) (yaml_data : yaml) : result data_t :=
  if truthy yaml_data then
    items ← py_items yaml_data; for_each merge_item data items
  else Ok data.

(** An object of [data] as a value: a set stays a set, only [list(v)] of
    line 68 makes a list of it. *)
Definition container_yaml (c : container) : yaml :=
  match c with
  | CDict d => YDict d
  | CSet s => YSet s
  | CList l => YList l
  end.

(** ** The file system

    The domains directory is the list of its entries (name and content) in
    the order [os.listdir] reports them, or [None] when it does not exist.
    The temporary directory maps the random part of a name to the content
    of the file [domain-<random>.yml].  The two directories are taken to be
    different, and every entry to be a readable regular file. *)

Record world (text : Type) : Type := World {
  domains_directory : option (list (string * text));
  tmp : gmap string text
}.
Arguments World {text} _ _.
Arguments domains_directory {text} _.
Arguments tmp {text} _.

Fixpoint ends_with (suffix s : string) : bool :=
  String.eqb suffix s ||
  match s with
  | EmptyString => false
  | String _ s' => ends_with suffix s'
  end.

Definition is_hidden (name : string) : bool :=
  match name with
  | String "."%char _ => true
  | _ => false
  end.

(** [glob.glob(os.path.join(dir, '*' + ext))]: the entries that are not
    hidden and whose name ends with [ext]; nothing for a missing directory. *)
Definition glob {text} (dir : option (list (string * text))) (ext : string)
  : list (string * text) :=
  match dir with
  | None => []
  | Some entries =>
      filter (fun e => negb (is_hidden e.1) && ends_with ext e.1 = true) entries
  end.

(** Line 60-61 *)
Definition domain_files {text} (w : world text) : list (string * text) :=
  glob (domains_directory w) ".yml" ++ glob (domains_directory w) ".yaml".

Definition tmp_path (random : string) : string :=
  "/tmp/domain-" +:+ random +:+ ".yml".

(** ** Well-formed fragments

    What the merge expects of a fragment, after the data model of the
    domain document: a mapping from the five known keys to a mapping
    ([slots], [templates]) or to a list of scalars ([entities], [intents],
    [actions]); or a falsy document, which is skipped.  With [lax] a
    set-valued key may also hold a single string.  The keys of a Python
    dictionary are hashable and pairwise different. *)

Definition distinct_keys (ks : list yaml) : bool :=
  bool_decide (NoDup (py_key <$> ks)).

Definition valid_set_value (lax : bool) (v : yaml) : bool :=
  match v with
  | YList l => forallb hashable l
  | YStr _ => lax
  | _ => false
  end.

Definition valid_dict_value (v : yaml) : bool :=
  match v with
  | YDict m => forallb (fun kv => hashable kv.1) m && distinct_keys m.*1
  | _ => false
  end.

Definition valid_item (lax : bool) (kv : yaml * yaml) : bool :=
  match kv.1 with
  | YStr name =>
      if bool_decide (name ∈ set_keys) then valid_set_value lax kv.2
      else if bool_decide (name ∈ dict_keys) then valid_dict_value kv.2
      else false
  | _ => false
  end.

Definition valid_fragment (lax : bool) (v : yaml) : bool :=
  match v with
  | YDict kvs => forallb (valid_item lax) kvs && distinct_keys kvs.*1
  | _ => negb (truthy v)
  end.

(** A top-level key that [data] has. *)
Definition recognized (k : yaml) : bool :=
  match py_key k with
  | Some (HStr name) => bool_decide (name ∈ domain_keys)
  | _ => false
  end.

(** ** What the fragments contribute to each key *)

(** The items a fragment is merged from (none when it is skipped). *)
Definition fragment_items (v : yaml) : list (yaml * yaml) :=
  match v with
  | YDict kvs => kvs
  | _ => []
  end.

(** The values given under the top-level key [name], in merge order. *)
Definition values_under (name : string) (items : list (yaml * yaml))
  : list yaml :=
  (filter (fun kv => py_key kv.1 = Some (HStr name)) items).*2.

Definition elements_of (v : yaml) : list yaml :=
  match py_iter v with
  | Ok xs => xs
  | Raise _ => []
  end.

Definition set_elems (name : string) (items : list (yaml * yaml)) : list yaml :=
  values_under name items ≫= elements_of.

Definition dict_pairs (name : string) (items : list (yaml * yaml))
  : list (yaml * yaml) :=
  values_under name items ≫= fragment_items.

(** A set [s] holds the elements [xs] added to it: no key twice, nothing
    that was not added, and every added element or an equal one. *)
Definition set_models (s xs : list yaml) : Prop :=
  NoDup (py_key <$> s) ∧
  Forall (fun x => is_Some (py_key x)) s ∧
  (∀ x, x ∈ s → x ∈ xs) ∧
  (∀ x, x ∈ xs → py_key x ∈ py_key <$> s).

(** Whatever was added to it, a set has no key twice. *)
Definition set_ok (s : list yaml) : Prop :=
  NoDup (py_key <$> s) ∧ Forall (fun x => is_Some (py_key x)) s.

Definition dict_ok (d : list (yaml * yaml)) : Prop :=
  NoDup (py_key <$> d.*1) ∧ Forall (fun kv => is_Some (py_key kv.1)) d.

(** A dictionary [d] holds the assignments [kvs] made to it in order: the
    last assignment to a key is the one that is read. *)
Definition dict_models (d kvs : list (yaml * yaml)) : Prop :=
  NoDup (py_key <$> d.*1) ∧
  Forall (fun kv => is_Some (py_key kv.1)) d ∧
  (∀ hk, dict_get d hk = dict_get (reverse kvs) hk).

Definition mk_data (ds : list (yaml * yaml)) (se si : list yaml)
    (dt : list (yaml * yaml)) (sa : list yaml) : data_t :=
  [ ("slots", CDict ds);
    ("entities", CSet se);
    ("intents", CSet si);
    ("templates", CDict dt);
    ("actions", CSet sa) ].

(** [data] at any point of the first loop: the five keys, sets without
    duplicates, dictionaries with pairwise different keys. *)
Definition data_ok (data : data_t) : Prop :=
  ∃ ds se si dt sa,
    data = mk_data ds se si dt sa ∧
    dict_ok ds ∧ set_ok se ∧ set_ok si ∧ dict_ok dt ∧ set_ok sa.

(** [data] after the top-level items [items] have been merged into it. *)
Definition data_models (data : data_t) (items : list (yaml * yaml)) : Prop :=
  ∃ ds se si dt sa,
    data = mk_data ds se si dt sa ∧
    dict_models ds (dict_pairs "slots" items) ∧
    set_models se (set_elems "entities" items) ∧
    set_models si (set_elems "intents" items) ∧
    dict_models dt (dict_pairs "templates" items) ∧
    set_models sa (set_elems "actions" items).

(** [data] after the items [items] have been merged into it, when no more
    is known of them than that the merge got through: what the sets
    hold. *)
Definition sets_model (data : data_t) (items : list (yaml * yaml)) : Prop :=
  ∃ ds se si dt sa,
    data = mk_data ds se si dt sa ∧
    dict_ok ds ∧ dict_ok dt ∧
    set_models se (set_elems "entities" items) ∧
    set_models si (set_elems "intents" items) ∧
    set_models sa (set_elems "actions" items).

(** The value of a document under a top-level key. *)
Definition doc_get (doc : yaml) (name : string) : option yaml :=
  dict_get (fragment_items doc) (HStr name).

(** The document that is dumped, by its five values. *)
Definition mk_document (ds : list (yaml * yaml)) (le li : list yaml)
    (dt : list (yaml * yaml)) (la : list yaml) : yaml :=
  YDict [ (YStr "slots", YDict ds);
          (YStr "entities", YList le);
          (YStr "intents", YList li);
          (YStr "templates", YDict dt);
          (YStr "actions", YList la) ].

(** Two lists with the same contents as sets. *)
Definition same_keys (l l' : list yaml) : Prop :=
  ∀ k, Some k ∈ py_key <$> l ↔ Some k ∈ py_key <$> l'.

(** ** Which files are read, which fragments merge *)

(** A name that [*.yml] or [*.yaml] matches. *)
Definition matches (name : string) : bool :=
  negb (is_hidden name) && (ends_with ".yml" name || ends_with ".yaml" name).

(** A value that cannot be iterated: [None], a boolean, an integer. *)
Definition non_iterable (x : yaml) : bool :=
  match x with
  | YNone | YBool _ | YInt _ => true
  | YStr _ | YList _ | YDict _ | YSet _ => false
  end.

(** A value that [set.update] accepts: an iterable of hashable elements. *)
Definition mergeable_set_value (x : yaml) : bool :=
  match py_iter x with
  | Ok xs => forallb hashable xs
  | Raise _ => false
  end.

(** An element that [dict.update] reads as a pair with a hashable key. *)
Definition pair_ok (e : yaml) : bool :=
  match as_pair e with
  | Ok p => hashable p.1
  | Raise _ => false
  end.

(** A value that [dict.update] accepts: a mapping, or an iterable of
    pairs. *)
Definition mergeable_dict_value (x : yaml) : bool :=
  match x with
  | YDict m => forallb (fun kv => hashable kv.1) m
  | _ =>
      match py_iter x with
      | Ok xs => forallb pair_ok xs
      | Raise _ => false
      end
  end.

Definition mergeable_item (kv : yaml * yaml) : bool :=
  match py_key kv.1 with
  | Some (HStr name) =>
      if bool_decide (name ∈ set_keys) then mergeable_set_value kv.2
      else if bool_decide (name ∈ dict_keys) then mergeable_dict_value kv.2
      else false
  | _ => false
  end.

(** A fragment that the first loop gets through: falsy, or a mapping of
    items that merge. *)
Definition mergeable_fragment (v : yaml) : bool :=
  if truthy v then
    match v with
    | YDict kvs => forallb mergeable_item kvs
    | _ => false
    end
  else true.

(** The fragment [v] defines the name [n] under the key [name]. *)
Definition defines (name : string) (n : hkey) (v : yaml) : bool :=
  bool_decide (is_Some (dict_get (dict_pairs name (fragment_items v)) n)).

(** ** The paths of a [Training] object (lines 26-46) *)

(** [os.path.join(a, b)] on POSIX *)
Definition os_path_join (a b : string) : string :=
  if String.prefix "/" b then b
  else if String.eqb a "" || ends_with "/" a then a +:+ b
  else a +:+ "/" +:+ b.

Record Training : Type := {
  self_max_history : Z;
  self_base_path : string;
  self_domains_directory : string;
  self_dialogue_model_path : string;
  self_nlu_model_path : string;
  self_dialogue_training_data_dir : string;
  self_nlu_training_data : string;
  self_nlu_model_config_file : string
}.

(** [Training.__init__]; [base_path] stands for
    [os.path.abspath(os.path.dirname(__file__))]. *)
Definition init (base_path domains_directory dialogue_model_path nlu_model_path
    dialogue_training_data_dir nlu_training_data nlu_model_config_file : string)
  : Training :=
  {| self_max_history := 5;
     self_base_path := base_path;
     self_domains_directory := os_path_join base_path domains_directory;
     self_dialogue_model_path := os_path_join base_path dialogue_model_path;
     self_nlu_model_path := os_path_join base_path nlu_model_path;
     self_dialogue_training_data_dir :=
       os_path_join base_path dialogue_training_data_dir;
     self_nlu_training_data := os_path_join base_path nlu_training_data;
     self_nlu_model_config_file := os_path_join base_path nlu_model_config_file |}.

(** [Training()] with the default arguments *)
Definition init_default (base_path : string) : Training :=
  init base_path "actions/domains" "models/dialogue" "models/nlu"
    "actions/dialogue_training_stories" "data/nlu_training_data.json"
    "configs/nlu_config.yml".

(** The six paths of the object. *)
Definition configured_paths (t : Training) : list string :=
  [ self_domains_directory t; self_dialogue_model_path t; self_nlu_model_path t;
    self_dialogue_training_data_dir t; self_nlu_training_data t;
    self_nlu_model_config_file t ].

(** ** A codec to run the model with

    Only used to evaluate the definitions on concrete inputs: the text of a
    file is what it parses to, or [Garbage] for a malformed document. *)
Inductive toy_text : Type :=
| Garbage
| Doc (v : yaml).

Definition toy_load (t : toy_text) : result yaml :=
  match t with
  | Garbage => Raise YAMLError
  | Doc v => Ok v
  end.

Definition toy_order (s : list yaml) : list yaml := reverse s.

(** An empty file loads as [None]. *)
Definition toy_empty : toy_text := Doc YNone.

(** A document that is empty as a value: nothing, or a collection or a
    string without elements. *)
Definition empty_value (v : yaml) : bool :=
  match v with
  | YNone => true
  | YStr s => String.eqb s ""
  | YList l => bool_decide (l = [])
  | YDict kvs => bool_decide (kvs = [])
  | YSet s => bool_decide (s = [])
  | YBool _ | YInt _ => false
  end.

(** ** Sample directories *)

Definition intents_ab : yaml :=
  YDict [(YStr "intents", YList [YStr "a"; YStr "b"])].
Definition intents_bc : yaml :=
  YDict [(YStr "intents", YList [YStr "b"; YStr "c"])].

Definition slot_text : yaml :=
  YDict [(YStr "slots",
          YDict [(YStr "location", YDict [(YStr "type", YStr "text")])]);
         (YStr "intents", YList [YStr "greet"])].
Definition slot_categorical : yaml :=
  YDict [(YStr "slots",
          YDict [(YStr "location", YDict [(YStr "type", YStr "categorical")]);
                 (YStr "count", YDict [(YStr "type", YStr "float")])])].

Definition intents_string : yaml := YDict [(YStr "intents", YStr "hey")].
Definition misspelt_key : yaml := YDict [(YStr "intent", YList [YStr "a"])].

Definition intents_null : yaml := YDict [(YStr "intents", YNone)].
Definition intents_nested : yaml :=
  YDict [(YStr "intents", YList [YStr "bye"; YDict [(YStr "greet", YNone)]])].
Definition slots_string : yaml := YDict [(YStr "slots", YStr "ab")].
Definition slots_pairs : yaml :=
  YDict [(YStr "slots", YList [YList [YStr "a"; YInt 1]; YStr "bc"])].
Definition entities_true_one : yaml :=
  YDict [(YStr "entities", YList [YBool true; YInt 1; YStr "1"])].

Definition dir (entries : list (string * toy_text)) : world toy_text :=
  World (Some entries) ∅.

Definition w_pair : world toy_text :=
  dir [("a.yml", Doc intents_ab); ("b.yml", Doc intents_bc)].
Definition w_slots : world toy_text :=
  dir [("later.yaml", Doc slot_categorical); ("first.yml", Doc slot_text)].
Definition w_none : world toy_text :=
  dir [("README.md", Garbage); (".hidden.yml", Garbage); ("yml", Garbage)].
Definition w_string : world toy_text :=
  dir [("a.yml", Doc intents_ab); ("s.yml", Doc intents_string)].
Definition w_misspelt : world toy_text :=
  dir [("a.yml", Doc intents_ab); ("m.yml", Doc misspelt_key)].
Definition w_malformed : world toy_text :=
  dir [("a.yml", Doc intents_ab); ("bad.yml", Garbage); ("b.yml", Doc intents_bc)].
Definition w_list : world toy_text :=
  dir [("l.yml", Doc (YList [YStr "a"]))].
Definition w_zero : world toy_text :=
  dir [("zero.yml", Doc (YInt 0))].
Definition w_with_empty : world toy_text :=
  dir [("a.yml", Doc intents_ab); ("empty.yml", Doc YNone); ("b.yml", Doc intents_bc)].
Definition w_pair_swapped : world toy_text :=
  dir [("b.yml", Doc intents_bc); ("a.yml", Doc intents_ab)].
Definition w_three : world toy_text :=
  dir [("1.yml", Doc slot_text); ("2.yml", Doc slot_categorical);
       ("3.yml", Doc intents_ab)].

Section Merge.
Context {text : Type}.

(** The content of a file that was opened for writing and not written. *)
Variable empty_text : text.
(** [yaml.safe_load] and [yaml.dump(_, default_flow_style=False)] *)
Variable safe_load : text → result yaml.
Variable dump : yaml → text.
(** [list(s)] for a set [s]: some enumeration of its elements. *)
Variable set_order : list yaml → list yaml.
Hypothesis set_order_perm : ∀ s, set_order s ≡ₚ s.

(** Lines 62-65 *)
Definition load_fragment (data : data_t) (f : string * text) : result data_t :=
  yaml_data ← safe_load f.2; merge_fragment data yaml_data.

(** Lines 60-65 *)
Definition read_fragments (files : list (string * text)) : result data_t :=
  for_each load_fragment initial_data files.

(** Lines 67-70.  In the [else] branch [v] is the dictionary [data[k]]
    itself. *)
Definition listify_item (data : data_t) (kv : string * container)
  : result data_t :=
  match kv.2 with
  | CSet s => Ok (data_set data kv.1 (CList (set_order s)))
  | v =>
      entry ← data_get data (YStr kv.1);
      c' ← container_update entry.2 (container_yaml v);
      Ok (data_set data entry.1 c')
  end.

(** Lines 66-70 *)
Definition listify (data : data_t) : result data_t :=
  for_each listify_item data data.

(** [dict(data)] as the document handed to [yaml.dump] *)
Definition document (data : data_t) : yaml :=
  YDict ((fun kv => (YStr kv.1, container_yaml kv.2)) <$> data).

(** Lines 59-71: what is computed while the output file is open. *)
Definition merged_document (w : world text) : result yaml :=
  data ← read_fragments (domain_files w);
  data' ← listify data;
  Ok (document data').

(** Lines 57-72.  The temporary file exists, empty, from line 59 on; an
    exception leaves the [with] block with the file closed and kept.  The
    fragments are read from the domains directory, which the creation of
    the temporary file does not change. *)
Definition get_domain_file (w : world text) : result string * world text :=
  let random := fresh (dom (tmp w)) in
  let filepath := tmp_path random in
  let w1 := World (domains_directory w) (<[random := empty_text]> (tmp w)) in
  match merged_document w with
  | Raise e => (Raise e, w1)
  | Ok doc =>
      (Ok filepath,
       World (domains_directory w1) (<[random := dump doc]> (tmp w1)))
  end.

(** The fragments [vs] are what the files [files] parse to. *)
Definition parsed (files : list (string * text)) (vs : list yaml) : Prop :=
  Forall2 (fun f v => safe_load f.2 = Ok v) files vs.

(** [get_domain_file] returns the path of a new temporary file that
    holds the dump of [doc]; nothing else changes. *)
Definition produces (w : world text) (doc : yaml) : Prop :=
  ∃ random,
    tmp w !! random = None ∧
    get_domain_file w =
      (Ok (tmp_path random),
       World (domains_directory w) (<[random := dump doc]> (tmp w))).

(** [get_domain_file] raises [e] and leaves a new, empty temporary file
    behind; nothing else changes. *)
Definition aborts (w : world text) (e : exn) : Prop :=
  ∃ random,
    tmp w !! random = None ∧
    get_domain_file w =
      (Raise e,
       World (domains_directory w) (<[random := empty_text]> (tmp w))).

(** A file that the first loop gets through. *)
Definition loadable (f : string * text) : bool :=
  match safe_load f.2 with
  | Ok v => mergeable_fragment v
  | Raise _ => false
  end.

(** The items that a file is merged from. *)
Definition file_items (f : string * text) : list (yaml * yaml) :=
  match safe_load f.2 with
  | Ok v => fragment_items v
  | Raise _ => []
  end.

(** ** Loops *)

Lemma for_each_app {S X} (body : S → X → result S) s xs ys :
  for_each body s (xs ++ ys) = s' ← for_each body s xs; for_each body s' ys.
Proof.
  revert s; induction xs as [|x xs IH]; intros s; simpl; [done|].
  destruct (body s x); simpl; auto.
Qed.

(** ** Sets *)

Lemma set_models_nil : set_models [] [].
Proof.
  repeat split; [constructor|constructor|done|].
  intros x Hx. by apply elem_of_nil in Hx.
Qed.

Lemma set_add_models s xs x :
  set_models s xs → is_Some (py_key x) →
  ∃ s', set_add s x = Ok s' ∧ set_models s' (xs ++ [x]).
Proof.
  intros (Hnd & Hh & Hsub & Hcov) [k Hk].
  unfold set_add, set_mem. rewrite Hk. case_bool_decide as Hmem.
  - exists s. split; [done|]. repeat split; auto.
    + intros y Hy. apply elem_of_app. left. auto.
    + intros y [Hy| ->%list_elem_of_singleton]%elem_of_app; [auto|].
      by rewrite Hk.
  - exists (s ++ [x]). split; [done|]. repeat split.
    + rewrite fmap_app. apply NoDup_app. split; [done|]. split.
      * intros y Hy ->%list_elem_of_singleton. by rewrite Hk in Hy.
      * apply NoDup_singleton.
    + apply Forall_app. split; [done|]. apply Forall_singleton. eauto.
    + intros y [Hy| Hy]%elem_of_app; apply elem_of_app; auto.
    + intros y Hy. rewrite fmap_app. apply elem_of_app.
      apply elem_of_app in Hy as [Hy| ->%list_elem_of_singleton]; [auto|].
      right. simpl. constructor.
Qed.

Lemma for_each_set_add s xs ys :
  set_models s xs → Forall (fun x => is_Some (py_key x)) ys →
  ∃ s', for_each set_add s ys = Ok s' ∧ set_models s' (xs ++ ys).
Proof.
  intros Hs Hys. revert s xs Hs.
  induction Hys as [|y ys Hy _ IH]; intros s xs Hs.
  - exists s. by rewrite app_nil_r.
  - destruct (set_add_models s xs y Hs Hy) as (s1 & E1 & Hs1).
    destruct (IH s1 _ Hs1) as (s2 & E2 & Hs2).
    exists s2. simpl. rewrite E1. simpl. split; [done|].
    by rewrite <- app_assoc in Hs2.
Qed.

(** ** Dictionaries *)

Lemma dict_get_set d hk k v hk' :
  py_key k = Some hk →
  dict_get (dict_set d hk k v) hk' =
    if decide (hk = hk') then Some v else dict_get d hk'.
Proof.
  intros Hk. induction d as [|[k0 v0] d IH]; simpl.
  - rewrite Hk. repeat case_decide; congruence.
  - repeat (case_decide; simpl); try congruence.
Qed.

Lemma dict_set_keys d hk k v x :
  py_key k = Some hk →
  x ∈ py_key <$> (dict_set d hk k v).*1 ↔ x ∈ py_key <$> d.*1 ∨ x = Some hk.
Proof.
  intros Hk. induction d as [|[k0 v0] d IH]; simpl.
  - rewrite Hk. rewrite list_elem_of_singleton. split; [auto|].
    intros [H|H]; [by apply elem_of_nil in H|done].
  - case_decide as E; simpl; rewrite !elem_of_cons.
    + split; [auto|]. intros [H| ->]; [done|]. by left.
    + rewrite IH. tauto.
Qed.

Lemma dict_set_ok d hk k v :
  py_key k = Some hk → dict_ok d → dict_ok (dict_set d hk k v).
Proof.
  intros Hk [Hnd Hh]. split.
  - induction d as [|[k0 v0] d IH]; simpl.
    + apply NoDup_singleton.
    + simpl in Hnd. apply NoDup_cons in Hnd as [Hk0 Hnd].
      apply Forall_cons in Hh as [_ Hh].
      case_decide as E; simpl; apply NoDup_cons; split; auto.
      rewrite dict_set_keys by done. intros [H|H]; [done|]. by rewrite H in E.
  - induction Hh as [|[k0 v0] d Hk0 Hh IH]; simpl.
    + apply Forall_singleton. simpl. eauto.
    + simpl in Hnd. apply NoDup_cons in Hnd as [_ Hnd].
      case_decide; apply Forall_cons; auto.
Qed.

Lemma dict_models_nil : dict_models [] [].
Proof. repeat split; [constructor|constructor]. Qed.

Lemma dict_models_ok d kvs : dict_models d kvs → dict_ok d.
Proof. intros (? & ? & _). by split. Qed.

Lemma dict_setitem_models d kvs kv :
  dict_models d kvs → is_Some (py_key kv.1) →
  ∃ d', dict_setitem d kv = Ok d' ∧ dict_models d' (kvs ++ [kv]).
Proof.
  intros Hd [hk Hk]. unfold dict_setitem. rewrite Hk.
  eexists. split; [done|].
  destruct (dict_set_ok d hk kv.1 kv.2 Hk (dict_models_ok _ _ Hd)) as [? ?].
  repeat split; [done|done|]. intros hk'.
  rewrite dict_get_set by done. rewrite reverse_snoc.
  destruct Hd as (_ & _ & Hget). destruct kv as [k v]; simpl in *.
  rewrite Hk. repeat case_decide; congruence || apply Hget.
Qed.

Lemma for_each_dict_setitem d kvs m :
  dict_models d kvs → Forall (fun kv => is_Some (py_key kv.1)) m →
  ∃ d', for_each dict_setitem d m = Ok d' ∧ dict_models d' (kvs ++ m).
Proof.
  intros Hd Hm. revert d kvs Hd.
  induction Hm as [|kv m Hkv _ IH]; intros d kvs Hd.
  - exists d. by rewrite app_nil_r.
  - destruct (dict_setitem_models d kvs kv Hd Hkv) as (d1 & E1 & Hd1).
    destruct (IH d1 _ Hd1) as (d2 & E2 & Hd2).
    exists d2. simpl. rewrite E1. simpl. split; [done|].
    by rewrite <- app_assoc in Hd2.
Qed.

Lemma dict_set_same d hk k v :
  dict_get d hk = Some v → dict_set d hk k v = d.
Proof.
  induction d as [|[k0 v0] d IH]; simpl; [done|].
  destruct (decide (py_key k0 = Some hk)); intros Hg; [congruence|by rewrite IH].
Qed.

Lemma dict_ok_get d k v :
  dict_ok d → (k, v) ∈ d →
  ∃ hk, py_key k = Some hk ∧ dict_get d hk = Some v.
Proof.
  intros [Hnd Hh] Hin. induction d as [|[k0 v0] d IH]; [by apply elem_of_nil in Hin|].
  simpl in Hnd. apply NoDup_cons in Hnd as [Hk0 Hnd].
  apply Forall_cons in Hh as [[hk0 Hhk0] Hh]. simpl in Hhk0.
  apply elem_of_cons in Hin as [[= -> ->]|Hin].
  - exists hk0. split; [done|]. simpl. by rewrite decide_True.
  - destruct (IH Hnd Hh Hin) as (hk & Hk & Hget).
    exists hk. split; [done|]. simpl. rewrite decide_False; [done|].
    intros E. apply Hk0. rewrite E, <- Hk.
    apply list_elem_of_fmap. exists k. split; [done|].
    apply list_elem_of_fmap. by exists (k, v).
Qed.

(** Updating a dictionary with itself (line 70) changes nothing. *)
Lemma dict_update_self d : dict_ok d → dict_update d (YDict d) = Ok d.
Proof.
  intros Hd. simpl.
  assert (∀ m, m ⊆ d → for_each dict_setitem d m = Ok d) as H; [|by apply H].
  induction m as [|[k v] m IH]; intros Hm; simpl; [done|].
  destruct (dict_ok_get d k v Hd) as (hk & Hk & Hget); [apply Hm; left|].
  unfold dict_setitem. simpl. rewrite Hk. simpl.
  rewrite dict_set_same by done. apply IH. intros x Hx. apply Hm. by right.
Qed.

Lemma set_update_models lax s xs x :
  set_models s xs → valid_set_value lax x = true →
  ∃ s', set_update s x = Ok s' ∧ set_models s' (xs ++ elements_of x).
Proof.
  intros Hs Hx. unfold set_update, elements_of.
  destruct x as [| | |str|l| |]; try done; simpl in *.
  - apply for_each_set_add; [done|].
    clear. induction str; simpl; constructor; eauto.
  - apply for_each_set_add; [done|].
    apply Forall_forall. intros y Hy.
    rewrite forallb_forall in Hx. apply list_elem_of_In, Hx in Hy.
    by apply bool_decide_eq_true in Hy.
Qed.

Lemma dict_update_models d kvs x :
  dict_models d kvs → valid_dict_value x = true →
  ∃ d', dict_update d x = Ok d' ∧ dict_models d' (kvs ++ fragment_items x).
Proof.
  intros Hd Hx. destruct x as [| | | | |m|]; try done; simpl in *.
  apply for_each_dict_setitem; [done|].
  apply andb_true_iff in Hx as [Hx _].
  apply Forall_forall. intros y Hy.
  rewrite forallb_forall in Hx. apply list_elem_of_In, Hx in Hy.
  by apply bool_decide_eq_true in Hy.
Qed.

(** ** One item of a fragment *)

Lemma merge_item_slots ds se si dt sa x :
  merge_item (mk_data ds se si dt sa) (YStr "slots", x) =
    d' ← dict_update ds x; Ok (mk_data d' se si dt sa).
Proof. unfold merge_item, data_get. simpl. by destruct (dict_update ds x). Qed.

Lemma merge_item_entities ds se si dt sa x :
  merge_item (mk_data ds se si dt sa) (YStr "entities", x) =
    s' ← set_update se x; Ok (mk_data ds s' si dt sa).
Proof. unfold merge_item, data_get. simpl. by destruct (set_update se x). Qed.

Lemma merge_item_intents ds se si dt sa x :
  merge_item (mk_data ds se si dt sa) (YStr "intents", x) =
    s' ← set_update si x; Ok (mk_data ds se s' dt sa).
Proof. unfold merge_item, data_get. simpl. by destruct (set_update si x). Qed.

Lemma merge_item_templates ds se si dt sa x :
  merge_item (mk_data ds se si dt sa) (YStr "templates", x) =
    d' ← dict_update dt x; Ok (mk_data ds se si d' sa).
Proof. unfold merge_item, data_get. simpl. by destruct (dict_update dt x). Qed.

Lemma merge_item_actions ds se si dt sa x :
  merge_item (mk_data ds se si dt sa) (YStr "actions", x) =
    s' ← set_update sa x; Ok (mk_data ds se si dt s').
Proof. unfold merge_item, data_get. simpl. by destruct (set_update sa x). Qed.

Lemma values_under_app name a b :
  values_under name (a ++ b) = values_under name a ++ values_under name b.
Proof. unfold values_under. by rewrite filter_app, fmap_app. Qed.

Lemma values_under_single name name' x :
  values_under name [(YStr name', x)] = if decide (name' = name) then [x] else [].
Proof.
  unfold values_under. rewrite filter_cons, filter_nil. simpl.
  repeat case_decide; simpl; congruence.
Qed.

Lemma set_elems_snoc name items name' x :
  set_elems name (items ++ [(YStr name', x)]) =
    set_elems name items ++ (if decide (name' = name) then elements_of x else []).
Proof.
  unfold set_elems. rewrite values_under_app, bind_app, values_under_single.
  case_decide; simpl; by rewrite ?app_nil_r.
Qed.

Lemma dict_pairs_snoc name items name' x :
  dict_pairs name (items ++ [(YStr name', x)]) =
    dict_pairs name items ++ (if decide (name' = name) then fragment_items x else []).
Proof.
  unfold dict_pairs. rewrite values_under_app, bind_app, values_under_single.
  case_decide; simpl; by rewrite ?app_nil_r.
Qed.

Lemma data_models_initial : data_models initial_data [].
Proof.
  exists [], [], [], [], []. split; [done|].
  auto 10 using set_models_nil, dict_models_nil.
Qed.

(** The item [(name', x)] was merged and only the component of [name']
    changed: the other components hold what they held. *)
Ltac item_merged :=
  split; [done|];
  rewrite !set_elems_snoc, !dict_pairs_snoc;
  repeat (case_decide; try done);
  by rewrite !app_nil_r.

Lemma merge_item_models lax data items kv :
  data_models data items → valid_item lax kv = true →
  ∃ data', merge_item data kv = Ok data' ∧ data_models data' (items ++ [kv]).
Proof.
  intros (ds & se & si & dt & sa & -> & Hds & Hse & Hsi & Hdt & Hsa) Hv.
  destruct kv as [[| | |name| | |] x]; try done.
  unfold valid_item in Hv. simpl in Hv.
  case_bool_decide as Hset.
  - apply list_elem_of_In in Hset. simpl in Hset.
    destruct Hset as [<-|[<-|[<-|[]]]].
    + destruct (set_update_models lax se _ x Hse Hv) as (s' & E & Hs').
      exists (mk_data ds s' si dt sa).
      split; [by rewrite merge_item_entities, E|].
      exists ds, s', si, dt, sa. item_merged.
    + destruct (set_update_models lax si _ x Hsi Hv) as (s' & E & Hs').
      exists (mk_data ds se s' dt sa).
      split; [by rewrite merge_item_intents, E|].
      exists ds, se, s', dt, sa. item_merged.
    + destruct (set_update_models lax sa _ x Hsa Hv) as (s' & E & Hs').
      exists (mk_data ds se si dt s').
      split; [by rewrite merge_item_actions, E|].
      exists ds, se, si, dt, s'. item_merged.
  - case_bool_decide as Hdict; [|done].
    apply list_elem_of_In in Hdict. simpl in Hdict.
    destruct Hdict as [<-|[<-|[]]].
    + destruct (dict_update_models ds _ x Hds Hv) as (d' & E & Hd').
      exists (mk_data d' se si dt sa).
      split; [by rewrite merge_item_slots, E|].
      exists d', se, si, dt, sa. item_merged.
    + destruct (dict_update_models dt _ x Hdt Hv) as (d' & E & Hd').
      exists (mk_data ds se si d' sa).
      split; [by rewrite merge_item_templates, E|].
      exists ds, se, si, d', sa. item_merged.
Qed.

(** ** One fragment, all fragments *)

Lemma for_each_merge_item lax data items kvs :
  data_models data items → forallb (valid_item lax) kvs = true →
  ∃ data', for_each merge_item data kvs = Ok data' ∧
           data_models data' (items ++ kvs).
Proof.
  revert data items. induction kvs as [|kv kvs IH]; intros data items Hd Hv.
  - exists data. by rewrite app_nil_r.
  - simpl in Hv. apply andb_true_iff in Hv as [Hkv Hv].
    destruct (merge_item_models lax data items kv Hd Hkv) as (d1 & E1 & Hd1).
    destruct (IH d1 _ Hd1 Hv) as (d2 & E2 & Hd2).
    exists d2. simpl. rewrite E1. simpl. split; [done|].
    by rewrite <- app_assoc in Hd2.
Qed.

Lemma merge_fragment_models lax data items v :
  data_models data items → valid_fragment lax v = true →
  ∃ data', merge_fragment data v = Ok data' ∧
           data_models data' (items ++ fragment_items v).
Proof.
  intros Hd Hv. unfold merge_fragment.
  destruct v as [| | | | |kvs|]; unfold valid_fragment in Hv;
    try (apply negb_true_iff in Hv; rewrite Hv; exists data;
         simpl; by rewrite app_nil_r).
  simpl. apply andb_true_iff in Hv as [Hv _].
  case_bool_decide as E; simpl.
  - subst kvs. exists data. by rewrite app_nil_r.
  - by apply (for_each_merge_item lax).
Qed.

Lemma load_fragment_parsed data f v :
  safe_load f.2 = Ok v → load_fragment data f = merge_fragment data v.
Proof. intros E. unfold load_fragment. by rewrite E. Qed.

Lemma load_fragments_models lax data items files vs :
  data_models data items → parsed files vs →
  Forall (fun v => valid_fragment lax v = true) vs →
  ∃ data', for_each load_fragment data files = Ok data' ∧
           data_models data' (items ++ vs ≫= fragment_items).
Proof.
  intros Hd Hp. revert data items Hd.
  induction Hp as [|f v files vs Hf _ IH]; intros data items Hd Hv.
  - exists data. simpl. by rewrite app_nil_r.
  - apply Forall_cons in Hv as [Hv Hvs].
    destruct (merge_fragment_models lax data items v Hd Hv) as (d1 & E1 & Hd1).
    destruct (IH d1 _ Hd1 Hvs) as (d2 & E2 & Hd2).
    exists d2.
    change (for_each load_fragment data (f :: files))
      with (s' ← load_fragment data f; for_each load_fragment s' files).
    rewrite (load_fragment_parsed data f v Hf).
    rewrite E1. simpl. split; [done|]. by rewrite <- app_assoc in Hd2.
Qed.

Lemma read_fragments_models lax files vs :
  parsed files vs → Forall (fun v => valid_fragment lax v = true) vs →
  ∃ data, read_fragments files = Ok data ∧
          data_models data (vs ≫= fragment_items).
Proof.
  intros Hp Hv.
  apply (load_fragments_models lax initial_data [] files vs); auto.
  apply data_models_initial.
Qed.

(** ** Lines 66-70: sets become lists *)

Lemma listify_mk_data ds se si dt sa :
  dict_ok ds → dict_ok dt →
  document <$> listify (mk_data ds se si dt sa) =
    Ok (mk_document ds (set_order se) (set_order si) dt (set_order sa)).
Proof.
  intros Hds Hdt. unfold listify, listify_item, data_get. simpl.
  pose proof (dict_update_self ds Hds) as Es. simpl in Es. rewrite Es. simpl.
  pose proof (dict_update_self dt Hdt) as Et. simpl in Et. rewrite Et. simpl.
  reflexivity.
Qed.

Lemma merged_document_fmap w :
  merged_document w = document <$> (data ← read_fragments (domain_files w); listify data).
Proof.
  unfold merged_document. destruct (read_fragments _); simpl; [|done].
  by destruct (listify _).
Qed.

(** ** The temporary file *)

Lemma fresh_tmp (w : world text) : tmp w !! fresh (dom (tmp w)) = None.
Proof. apply not_elem_of_dom, is_fresh. Qed.

Lemma get_domain_file_ok w doc :
  merged_document w = Ok doc → produces w doc.
Proof.
  intros E. exists (fresh (dom (tmp w))). split; [apply fresh_tmp|].
  unfold get_domain_file. rewrite E. simpl. by rewrite insert_insert_eq.
Qed.

Lemma get_domain_file_raise w e :
  merged_document w = Raise e → aborts w e.
Proof.
  intros E. exists (fresh (dom (tmp w))). split; [apply fresh_tmp|].
  unfold get_domain_file. by rewrite E.
Qed.

Lemma set_models_perm s s' xs : s ≡ₚ s' → set_models s xs → set_models s' xs.
Proof.
  intros Hp (Hnd & Hh & Hsub & Hcov). repeat split.
  - by rewrite <- Hp.
  - by rewrite <- Hp.
  - intros x Hx. apply Hsub. by rewrite Hp.
  - intros x Hx. rewrite <- Hp. auto.
Qed.

(** ** The merged document of well-formed fragments *)

Lemma merged_document_valid lax w vs :
  parsed (domain_files w) vs →
  Forall (fun v => valid_fragment lax v = true) vs →
  ∃ ds le li dt la,
    merged_document w = Ok (mk_document ds le li dt la) ∧
    dict_models ds (dict_pairs "slots" (vs ≫= fragment_items)) ∧
    set_models le (set_elems "entities" (vs ≫= fragment_items)) ∧
    set_models li (set_elems "intents" (vs ≫= fragment_items)) ∧
    dict_models dt (dict_pairs "templates" (vs ≫= fragment_items)) ∧
    set_models la (set_elems "actions" (vs ≫= fragment_items)).
Proof.
  intros Hp Hv.
  destruct (read_fragments_models lax _ vs Hp Hv)
    as (data & E & ds & se & si & dt & sa & -> & Hds & Hse & Hsi & Hdt & Hsa).
  exists ds, (set_order se), (set_order si), dt, (set_order sa).
  split.
  - rewrite merged_document_fmap, E. simpl.
    apply listify_mk_data; by eapply dict_models_ok.
  - repeat split; try apply Hds; try apply Hdt;
      (eapply set_models_perm; [symmetry; apply set_order_perm|]); done.
Qed.

(** ** Reading a dictionary with pairwise different keys *)

Lemma dict_get_None d hk :
  dict_get d hk = None ↔ Some hk ∉ py_key <$> d.*1.
Proof.
  induction d as [|[k0 v0] d IH]; simpl.
  - split; [|done]. intros _ H. by apply elem_of_nil in H.
  - rewrite not_elem_of_cons. case_decide as E.
    + split; [done|]. intros [H _]. by rewrite E in H.
    + rewrite IH. split; [|tauto]. intros H. split; [congruence|done].
Qed.

Lemma dict_get_app a b hk :
  dict_get (a ++ b) hk =
    match dict_get a hk with Some v => Some v | None => dict_get b hk end.
Proof.
  induction a as [|[k0 v0] a IH]; simpl; [done|]. by case_decide.
Qed.

Lemma dict_get_reverse d hk :
  NoDup (py_key <$> d.*1) → dict_get (reverse d) hk = dict_get d hk.
Proof.
  induction d as [|[k0 v0] d IH]; simpl; [done|].
  intros [Hk0 Hnd]%NoDup_cons. rewrite reverse_cons, dict_get_app, IH by done.
  simpl. case_decide as E.
  - rewrite E in Hk0. apply dict_get_None in Hk0. by rewrite Hk0.
  - by destruct (dict_get d hk).
Qed.

Lemma filter_key_absent hk kvs :
  dict_get kvs hk = None →
  filter (fun kv : yaml * yaml => py_key kv.1 = Some hk) kvs = [].
Proof.
  induction kvs as [|[k0 v0] kvs IH]; simpl; [done|].
  rewrite filter_cons. simpl. case_decide; [done|]. exact IH.
Qed.

Lemma values_under_get name kvs v :
  distinct_keys kvs.*1 = true → dict_get kvs (HStr name) = Some v →
  values_under name kvs = [v].
Proof.
  unfold distinct_keys, values_under. rewrite bool_decide_eq_true.
  induction kvs as [|[k0 v0] kvs IH]; simpl; [done|].
  intros [Hk0 Hnd]%NoDup_cons. rewrite filter_cons. simpl.
  case_decide as E.
  - intros [= ->]. rewrite E in Hk0. apply dict_get_None in Hk0.
    by rewrite filter_key_absent.
  - intros Hget. by apply IH.
Qed.

Lemma py_key_str y t : py_key y = Some (HStr t) → y = YStr t.
Proof. destruct y as [| [] | | | | |]; simpl; congruence. Qed.

Lemma chars_str s c : c ∈ chars s → ∃ t, c = YStr t.
Proof.
  induction s as [|a s IH]; simpl; [by intros H%elem_of_nil|].
  intros [->|H]%elem_of_cons; eauto.
Qed.

Lemma set_elems_elem name items x y :
  (YStr name, x) ∈ items → y ∈ elements_of x → y ∈ set_elems name items.
Proof.
  intros Hx Hy. unfold set_elems, values_under.
  apply list_elem_of_bind. exists x. split; [done|].
  apply list_elem_of_fmap. exists (YStr name, x). split; [done|].
  by apply list_elem_of_filter.
Qed.

Lemma set_models_str s xs t : set_models s xs → YStr t ∈ xs → YStr t ∈ s.
Proof.
  intros (_ & _ & _ & Hcov) Hin. apply Hcov in Hin.
  apply list_elem_of_fmap in Hin as (y & Hy & Hin).
  symmetry in Hy. apply py_key_str in Hy. by subst y.
Qed.

Lemma set_order_nil : set_order [] = [].
Proof. apply Permutation_nil_r, set_order_perm. Qed.

Lemma domain_files_missing (w : world text) : domains_directory w = None → domain_files w = [].
Proof. intros E. unfold domain_files. by rewrite E. Qed.

Lemma dict_get_elem d hk v :
  dict_get d hk = Some v → ∃ k, (k, v) ∈ d ∧ py_key k = Some hk.
Proof.
  induction d as [|[k0 v0] d IH]; simpl; [done|].
  case_decide as E.
  - intros [= ->]. exists k0. split; [left|done].
  - intros (k & Hin & Hk)%IH. exists k. split; [by right|done].
Qed.

Lemma valid_item_dict lax name k x :
  name ∈ dict_keys → py_key k = Some (HStr name) →
  valid_item lax (k, x) = true → valid_dict_value x = true.
Proof.
  intros Hn ->%py_key_str. unfold valid_item. simpl.
  apply list_elem_of_In in Hn. simpl in Hn.
  destruct Hn as [<-|[<-|[]]];
    (case_bool_decide as Hs;
     [apply list_elem_of_In in Hs; simpl in Hs; intuition discriminate|]);
    by case_bool_decide.
Qed.

Lemma dict_pairs_last name items kvs m :
  distinct_keys kvs.*1 = true →
  dict_get kvs (HStr name) = Some (YDict m) →
  dict_pairs name (items ++ kvs) = dict_pairs name items ++ m.
Proof.
  intros Hd Hg. unfold dict_pairs.
  rewrite values_under_app, bind_app, (values_under_get _ _ _ Hd Hg).
  simpl. by rewrite app_nil_r.
Qed.

Lemma dict_models_last d kvs m hk v :
  dict_models d (kvs ++ m) → NoDup (py_key <$> m.*1) →
  dict_get m hk = Some v → dict_get d hk = Some v.
Proof.
  intros (_ & _ & Hget) Hnd Hm.
  by rewrite Hget, reverse_app, dict_get_app, dict_get_reverse, Hm.
Qed.

(** ** Failing merges *)

Lemma for_each_raises_inv {S X} (I : S → Prop) (body : S → X → result S) s xs x :
  I s → (∀ s0 y s1, I s0 → body s0 y = Ok s1 → I s1) →
  x ∈ xs → (∀ s0, I s0 → is_ok (body s0 x) = false) →
  is_ok (for_each body s xs) = false.
Proof.
  intros Hs Hpres Hin Hx. revert s Hs.
  induction xs as [|y xs IH]; intros s Hs; [by apply elem_of_nil in Hin|].
  simpl. destruct (body s y) as [s1|e] eqn:E; simpl; [|done].
  apply elem_of_cons in Hin as [->|Hin].
  - apply Hx in Hs. by rewrite E in Hs.
  - apply IH; eauto.
Qed.

Lemma for_each_inv {S X} (I : S → Prop) (body : S → X → result S) s xs s' :
  I s → (∀ s0 y s1, I s0 → body s0 y = Ok s1 → I s1) →
  for_each body s xs = Ok s' → I s'.
Proof.
  intros Hs Hpres. revert s Hs.
  induction xs as [|y xs IH]; intros s Hs; simpl; [congruence|].
  destruct (body s y) as [s1|e] eqn:E; simpl; [|done]. eauto.
Qed.

Lemma data_set_keys data name c : (data_set data name c).*1 = data.*1.
Proof.
  induction data as [|[n c0] data IH]; simpl; [done|].
  case_decide; simpl; [done|]. f_equal. exact IH.
Qed.

Lemma data_lookup_None data name :
  name ∉ data.*1 → data_lookup data name = None.
Proof.
  induction data as [|[n c0] data IH]; simpl; [done|].
  intros [Hn Hd]%not_elem_of_cons. case_decide; [congruence|auto].
Qed.

Lemma merge_item_keys data kv data' :
  merge_item data kv = Ok data' → data'.*1 = data.*1.
Proof.
  unfold merge_item. destruct (data_get data kv.1); simpl; [|done].
  destruct (container_update _ _); simpl; [|done].
  intros [= <-]. apply data_set_keys.
Qed.

Lemma merge_fragment_keys data v data' :
  data.*1 = domain_keys → merge_fragment data v = Ok data' →
  data'.*1 = domain_keys.
Proof.
  intros Hk. unfold merge_fragment. destruct (truthy v); [|congruence].
  destruct (py_items v) as [items|]; simpl; [|done].
  apply (for_each_inv (fun d : data_t => d.*1 = domain_keys)); [done|].
  intros s0 y s1 H0 E. by rewrite (merge_item_keys _ _ _ E).
Qed.

Lemma load_fragment_keys data f data' :
  data.*1 = domain_keys → load_fragment data f = Ok data' →
  data'.*1 = domain_keys.
Proof.
  intros Hk. unfold load_fragment. destruct (safe_load f.2); simpl; [|done].
  by apply merge_fragment_keys.
Qed.

Lemma merge_item_unrecognized data k x :
  data.*1 = domain_keys → recognized k = false →
  is_ok (merge_item data (k, x)) = false.
Proof.
  intros Hk Hr. unfold merge_item, data_get, recognized in *. simpl.
  destruct (py_key k) as [[| |name]|]; try done.
  apply bool_decide_eq_false in Hr. rewrite <- Hk in Hr.
  by rewrite (data_lookup_None _ _ Hr).
Qed.

Lemma merged_document_raises w :
  is_ok (read_fragments (domain_files w)) = false →
  ∃ e, merged_document w = Raise e.
Proof.
  unfold merged_document. destruct (read_fragments _); [done|]. eauto.
Qed.

Lemma read_fragments_split pre f post :
  read_fragments (pre ++ f :: post) =
    data ← read_fragments pre;
    data' ← load_fragment data f;
    for_each load_fragment data' post.
Proof. unfold read_fragments. by rewrite for_each_app. Qed.

Lemma aborts_at pre f post w e0 :
  domain_files w = pre ++ f :: post →
  (∀ data, load_fragment data f = Raise e0) →
  ∃ e, aborts w e ∧ (is_ok (read_fragments pre) = true → e = e0).
Proof.
  intros Hw Hf.
  assert (∃ e, merged_document w = Raise e ∧
               (is_ok (read_fragments pre) = true → e = e0)) as (e & E & He).
  { unfold merged_document. rewrite Hw, read_fragments_split.
    destruct (read_fragments pre) as [data|e1]; simpl.
    - rewrite Hf. simpl. eauto.
    - exists e1. by split. }
  exists e. split; [by apply get_domain_file_raise|done].
Qed.

Lemma covered_string (li : list yaml) t :
  py_key (YStr t) ∈ py_key <$> li → YStr t ∈ li.
Proof.
  intros (y & Hy & Hin)%list_elem_of_fmap.
  symmetry in Hy. apply py_key_str in Hy. by subst y.
Qed.

(** ** What holds of every merge that succeeds *)

Lemma set_add_ok s x s' : set_ok s → set_add s x = Ok s' → set_ok s'.
Proof.
  intros [Hnd Hh]. unfold set_add, set_mem.
  destruct (py_key x) as [k|] eqn:Hk; [|done].
  case_bool_decide as Hmem; intros [= <-]; [done|]. split.
  - rewrite fmap_app. apply NoDup_app. split; [done|]. split.
    + intros y Hy ->%list_elem_of_singleton. by rewrite Hk in Hy.
    + apply NoDup_singleton.
  - apply Forall_app. split; [done|]. apply Forall_singleton. eauto.
Qed.

Lemma set_update_ok s v s' : set_ok s → set_update s v = Ok s' → set_ok s'.
Proof.
  intros Hs. unfold set_update. destruct (py_iter v) as [xs|]; simpl; [|done].
  apply (for_each_inv set_ok); [done|].
  intros s0 y s1. apply set_add_ok.
Qed.

Lemma dict_setitem_ok d kv d' : dict_ok d → dict_setitem d kv = Ok d' → dict_ok d'.
Proof.
  intros Hd. unfold dict_setitem.
  destruct (py_key kv.1) as [hk|] eqn:Hk; [|done].
  intros [= <-]. by apply dict_set_ok.
Qed.

Lemma dict_update_ok d v d' : dict_ok d → dict_update d v = Ok d' → dict_ok d'.
Proof.
  intros Hd. unfold dict_update.
  assert (∀ xs, for_each (fun d e => p ← as_pair e; dict_setitem d p) d xs = Ok d'
                → dict_ok d') as Hpairs.
  { intros xs. apply (for_each_inv dict_ok); [done|].
    intros d0 e d1 Hd0. destruct (as_pair e); simpl; [|done].
    by apply dict_setitem_ok. }
  destruct v; simpl; try done; try apply Hpairs.
  apply (for_each_inv dict_ok); [done|].
  intros d0 kv d1. apply dict_setitem_ok.
Qed.

Lemma data_lookup_Some data name c :
  data_lookup data name = Some c → name ∈ data.*1.
Proof.
  induction data as [|[n c0] data IH]; simpl; [done|].
  case_decide as E; [intros _; subst; left|intros H; right; auto].
Qed.

Lemma merge_item_ok data kv data' :
  data_ok data → merge_item data kv = Ok data' → data_ok data'.
Proof.
  intros (ds & se & si & dt & sa & -> & Hds & Hse & Hsi & Hdt & Hsa).
  destruct kv as [k x].
  destruct (data_get (mk_data ds se si dt sa) k) as [c|] eqn:Eg;
    [|unfold merge_item; simpl; by rewrite Eg].
  unfold data_get in Eg. destruct (py_key k) as [[| |name]|] eqn:Hk; try done.
  apply py_key_str in Hk as ->.
  destruct (data_lookup _ name) as [c0|] eqn:El; [|done].
  apply data_lookup_Some, list_elem_of_In in El. simpl in El.
  destruct El as [<-|[<-|[<-|[<-|[<-|[]]]]]].
  - rewrite merge_item_slots.
    destruct (dict_update ds x) as [d'|] eqn:E; simpl; [|done]. intros [= <-].
    exists d', se, si, dt, sa. eauto 10 using dict_update_ok.
  - rewrite merge_item_entities.
    destruct (set_update se x) as [s'|] eqn:E; simpl; [|done]. intros [= <-].
    exists ds, s', si, dt, sa. eauto 10 using set_update_ok.
  - rewrite merge_item_intents.
    destruct (set_update si x) as [s'|] eqn:E; simpl; [|done]. intros [= <-].
    exists ds, se, s', dt, sa. eauto 10 using set_update_ok.
  - rewrite merge_item_templates.
    destruct (dict_update dt x) as [d'|] eqn:E; simpl; [|done]. intros [= <-].
    exists ds, se, si, d', sa. eauto 10 using dict_update_ok.
  - rewrite merge_item_actions.
    destruct (set_update sa x) as [s'|] eqn:E; simpl; [|done]. intros [= <-].
    exists ds, se, si, dt, s'. eauto 10 using set_update_ok.
Qed.

Lemma load_fragment_ok data f data' :
  data_ok data → load_fragment data f = Ok data' → data_ok data'.
Proof.
  intros Hd. unfold load_fragment, merge_fragment.
  destruct (safe_load f.2) as [v|]; simpl; [|done].
  destruct (truthy v); [|by intros [= <-]].
  destruct (py_items v) as [items|]; simpl; [|done].
  apply (for_each_inv data_ok); [done|].
  intros d0 kv d1. apply merge_item_ok.
Qed.

Lemma data_ok_initial : data_ok initial_data.
Proof.
  exists [], [], [], [], []. split; [done|].
  repeat split; constructor.
Qed.


(** ** The claims *)

(** C1: two fragment files that parse to well-formed mappings with the
    lists [l1] and [l2] under [intents] are merged into a document whose
    [intents] list is the union of [l1] and [l2] as a set: every element
    of the list comes from [l1] or [l2], every element of [l1] and [l2]
    is in it up to Python equality, and none is in it twice. *)
Theorem intents_merged_by_union w f1 f2 kvs1 kvs2 l1 l2 :
  domain_files w = [f1; f2] →
  safe_load f1.2 = Ok (YDict kvs1) →
  safe_load f2.2 = Ok (YDict kvs2) →
  valid_fragment false (YDict kvs1) = true →
  valid_fragment false (YDict kvs2) = true →
  dict_get kvs1 (HStr "intents") = Some (YList l1) →
  dict_get kvs2 (HStr "intents") = Some (YList l2) →
  ∃ ds le li dt la,
    produces w (mk_document ds le li dt la) ∧
    NoDup (py_key <$> li) ∧
    (∀ x, x ∈ li → x ∈ l1 ∨ x ∈ l2) ∧
    (∀ x, x ∈ l1 ∨ x ∈ l2 → py_key x ∈ py_key <$> li).
Proof.
  intros Hw Hf1 Hf2 Hv1 Hv2 Hg1 Hg2.
  destruct (merged_document_valid false w [YDict kvs1; YDict kvs2])
    as (ds & le & li & dt & la & E & _ & _ & Hli & _ & _).
  { rewrite Hw. by repeat constructor. }
  { by repeat constructor. }
  exists ds, le, li, dt, la. split; [by apply get_domain_file_ok|].
  assert (set_elems "intents" ([YDict kvs1; YDict kvs2] ≫= fragment_items)
          = l1 ++ l2) as El.
  { simpl. rewrite app_nil_r. unfold set_elems.
    apply andb_true_iff in Hv1 as [_ Hd1]. apply andb_true_iff in Hv2 as [_ Hd2].
    rewrite values_under_app, (values_under_get _ _ _ Hd1 Hg1),
      (values_under_get _ _ _ Hd2 Hg2).
    simpl. by rewrite !app_nil_r. }
  rewrite El in Hli. destruct Hli as (Hnd & _ & Hsub & Hcov).
  split; [done|]. split.
  - intros x Hx. apply elem_of_app. auto.
  - intros x Hx. apply Hcov, elem_of_app. done.
Qed.

(** C2: [slots] and [templates] are merged by overwriting.  When the
    fragment that is merged last defines [n] under such a key, the
    merged document has that definition for [n], whatever the fragments
    before it defined for [n]; two files that define the same slot are
    the case of one fragment before it. *)
Theorem later_definition_wins w vs kvs2 name m2 n d2 :
  parsed (domain_files w) (vs ++ [YDict kvs2]) →
  Forall (fun v => valid_fragment false v = true) (vs ++ [YDict kvs2]) →
  name ∈ dict_keys →
  dict_get kvs2 (HStr name) = Some (YDict m2) →
  dict_get m2 n = Some d2 →
  ∃ doc m,
    produces w doc ∧
    doc_get doc name = Some (YDict m) ∧
    dict_get m n = Some d2.
Proof.
  intros Hp Hv Hname Hg2 Hn.
  destruct (merged_document_valid false w _ Hp Hv)
    as (ds & le & li & dt & la & E & Hds & _ & _ & Hdt & _).
  pose proof Hv as Hv2. apply Forall_app in Hv2 as [_ Hv2].
  apply Forall_singleton, andb_true_iff in Hv2 as [Hitems Hdist].
  destruct (dict_get_elem _ _ _ Hg2) as (k & Hin & Hk).
  rewrite forallb_forall in Hitems.
  apply list_elem_of_In, Hitems in Hin.
  apply (valid_item_dict _ name) in Hin; [|done..].
  apply andb_true_iff in Hin as [_ Hm2].
  apply bool_decide_eq_true in Hm2.
  rewrite bind_app in Hds, Hdt. simpl in Hds, Hdt.
  rewrite app_nil_r in Hds, Hdt.
  exists (mk_document ds le li dt la).
  apply list_elem_of_In in Hname. simpl in Hname.
  destruct Hname as [<-|[<-|[]]].
  - exists ds. split; [by apply get_domain_file_ok|]. split; [done|].
    rewrite (dict_pairs_last _ _ _ _ Hdist Hg2) in Hds.
    by eapply dict_models_last.
  - exists dt. split; [by apply get_domain_file_ok|]. split; [done|].
    rewrite (dict_pairs_last _ _ _ _ Hdist Hg2) in Hdt.
    by eapply dict_models_last.
Qed.

(** C3: a fragment that parses to a mapping with a top-level key other
    than [slots], [entities], [intents], [templates] and [actions] makes
    [get_domain_file] raise: no document is written, the key is not
    dropped. *)
Theorem unrecognized_key_aborts w f kvs k x :
  f ∈ domain_files w →
  safe_load f.2 = Ok (YDict kvs) →
  (k, x) ∈ kvs →
  recognized k = false →
  ∃ e, aborts w e.
Proof.
  intros Hf Hload Hin Hk.
  destruct (merged_document_raises w) as [e E]; [|by eauto using get_domain_file_raise].
  apply (for_each_raises_inv (fun d : data_t => d.*1 = domain_keys) _ _ _ f);
    [done|apply load_fragment_keys|done|].
  intros data Hdata. rewrite (load_fragment_parsed _ _ _ Hload).
  unfold merge_fragment. simpl. case_bool_decide as Hnil.
  { subst kvs. by apply elem_of_nil in Hin. }
  simpl.
  apply (for_each_raises_inv (fun d : data_t => d.*1 = domain_keys) _ _ _ (k, x));
    [done| |done|].
  - intros s0 y s1 H0 Ey. by rewrite (merge_item_keys _ _ _ Ey).
  - intros s0 H0. by apply merge_item_unrecognized.
Qed.

(** C4: when the domains directory is missing, or holds no file that
    [*.yml] or [*.yaml] matches, [get_domain_file] succeeds and the
    document it writes has the five keys, each with an empty value. *)
Theorem no_fragments_empty_document w :
  domains_directory w = None ∨ domain_files w = [] →
  produces w (mk_document [] [] [] [] []).
Proof.
  intros H. assert (domain_files w = []) as E.
  { destruct H as [H|H]; [by apply domain_files_missing|done]. }
  apply get_domain_file_ok. unfold merged_document. rewrite E. simpl.
  unfold listify_item, data_get. simpl. by rewrite set_order_nil.
Qed.


(** C6: a malformed fragment aborts the whole merge.  [get_domain_file]
    raises and writes no document, whatever the files after the
    malformed one hold; the exception is the parse error of
    [yaml.safe_load] unless a file before the malformed one has already
    made the merge raise. *)
Theorem malformed_fragment_aborts w pre f post :
  domain_files w = pre ++ f :: post →
  safe_load f.2 = Raise YAMLError →
  ∃ e, aborts w e ∧ (is_ok (read_fragments pre) = true → e = YAMLError).
Proof.
  intros Hw Hf. apply (aborts_at pre f post); [done|].
  intros data. unfold load_fragment. by rewrite Hf.
Qed.

(** C8, as the code has it: a fragment that parses to a truthy value
    that is not a mapping (a non-empty list or string, a number other
    than zero, [True]) makes [get_domain_file] raise; the exception is
    the [AttributeError] of [.items()] unless a file before it has
    already made the merge raise. *)
Theorem truthy_non_mapping_aborts w pre f post v :
  domain_files w = pre ++ f :: post →
  safe_load f.2 = Ok v →
  truthy v = true →
  (∀ kvs, v ≠ YDict kvs) →
  ∃ e, aborts w e ∧ (is_ok (read_fragments pre) = true → e = AttributeError).
Proof.
  intros Hw Hf Ht Hv. apply (aborts_at pre f post); [done|].
  intros data. rewrite (load_fragment_parsed _ _ _ Hf).
  unfold merge_fragment. rewrite Ht.
  destruct v; try done. by destruct (Hv kvs).
Qed.

(** C9: a fragment that gives a single string [s] under [entities],
    [intents] or [actions] is not rejected: with the fragments otherwise
    well formed, [get_domain_file] succeeds and every character of [s] is
    an element of its own in the merged list of that key. *)
Theorem string_merged_by_character w vs v name s :
  parsed (domain_files w) vs →
  Forall (fun v => valid_fragment true v = true) vs →
  name ∈ set_keys →
  v ∈ vs → (YStr name, YStr s) ∈ fragment_items v →
  ∃ doc l,
    produces w doc ∧
    doc_get doc name = Some (YList l) ∧
    NoDup l ∧
    ∀ c, c ∈ chars s → c ∈ l.
Proof.
  intros Hp Hv Hname Hin Hitem.
  destruct (merged_document_valid true w _ Hp Hv)
    as (ds & le & li & dt & la & E & _ & Hle & Hli & _ & Hla).
  assert (∀ c, c ∈ chars s →
               c ∈ set_elems name (vs ≫= fragment_items)) as Hc.
  { intros c Hc. apply (set_elems_elem _ _ (YStr s)); [|done].
    apply list_elem_of_bind. eauto. }
  exists (mk_document ds le li dt la).
  apply list_elem_of_In in Hname. simpl in Hname.
  destruct Hname as [<-|[<-|[<-|[]]]];
    [exists le; pose proof Hle as Hl
    |exists li; pose proof Hli as Hl
    |exists la; pose proof Hla as Hl];
    (split; [by apply get_domain_file_ok|]; split; [done|]; split;
     [destruct Hl as [Hnd _]; by apply NoDup_fmap_1 in Hnd
     |intros c Hcs; destruct (chars_str _ _ Hcs) as [t ->];
      eapply set_models_str; eauto]).
Qed.

(** C10: the temporary file is created before any fragment is read, so
    whenever [get_domain_file] raises, a temporary file that did not
    exist before is left behind, empty. *)
Theorem failure_leaves_empty_file w e :
  (get_domain_file w).1 = Raise e →
  ∃ random,
    tmp w !! random = None ∧
    tmp (get_domain_file w).2 !! random = Some empty_text.
Proof.
  intros H. exists (fresh (dom (tmp w))). split; [apply fresh_tmp|].
  unfold get_domain_file in *.
  destruct (merged_document w); simpl in *; [done|].
  apply lookup_insert_eq.
Qed.

(** ** Further properties of [get_domain_file] *)

(** *** Which files are read *)

Lemma glob_unmatched {T} (es1 es2 : list (string * T)) e ext :
  negb (is_hidden e.1) && ends_with ext e.1 = false →
  glob (Some (es1 ++ e :: es2)) ext = glob (Some (es1 ++ es2)) ext.
Proof.
  intros H. unfold glob. rewrite !filter_app, filter_cons.
  rewrite decide_False; [done|]. by rewrite H.
Qed.

Lemma merged_document_files w w' :
  domain_files w = domain_files w' → merged_document w = merged_document w'.
Proof. intros E. unfold merged_document. by rewrite E. Qed.

Lemma ends_with_cons suffix c s :
  ends_with suffix (String c s) =
    String.eqb suffix (String c s) || ends_with suffix s.
Proof. reflexivity. Qed.

Lemma get_domain_file_same w w' :
  merged_document w = merged_document w' → tmp w = tmp w' →
  (get_domain_file w).1 = (get_domain_file w').1 ∧
  tmp (get_domain_file w).2 = tmp (get_domain_file w').2.
Proof.
  intros E Et. unfold get_domain_file. rewrite E, Et. simpl.
  by destruct (merged_document w').
Qed.

Lemma yml_not_yaml name :
  ends_with ".yml" name = true → ends_with ".yaml" name = true → False.
Proof.
  induction name as [|c name IH]; [done|].
  rewrite !ends_with_cons.
  intros [H1|H1]%orb_true_iff [H2|H2]%orb_true_iff.
  - apply String.eqb_eq in H1, H2. congruence.
  - apply String.eqb_eq in H1. injection H1 as <- <-. done.
  - apply String.eqb_eq in H2. injection H2 as <- <-. done.
  - auto.
Qed.

(** X1: an entry of the domains directory that neither [*.yml] nor
    [*.yaml] matches (another extension, a hidden file) is never read: with
    or without it, [get_domain_file] returns the same result and leaves the
    same temporary files. *)
Theorem unmatched_entry_ignored es1 e es2 t :
  matches e.1 = false →
  (get_domain_file (World (Some (es1 ++ e :: es2)) t)).1 =
    (get_domain_file (World (Some (es1 ++ es2)) t)).1 ∧
  tmp (get_domain_file (World (Some (es1 ++ e :: es2)) t)).2 =
    tmp (get_domain_file (World (Some (es1 ++ es2)) t)).2.
Proof.
  intros H. unfold matches in H.
  assert (domain_files (World (Some (es1 ++ e :: es2)) t) =
          domain_files (World (Some (es1 ++ es2)) t)) as E.
  { unfold domain_files. cbn [domains_directory].
    rewrite !(glob_unmatched es1 es2 e); [done|..];
      destruct (is_hidden e.1); simpl in *; try done;
      by apply orb_false_iff in H as [? ?]. }
  by apply get_domain_file_same; [apply merged_document_files|].
Qed.

(** X2: no file is read twice.  When the entries of the directory have
    different names, so have the files that are merged: a name is not
    matched by both [*.yml] and [*.yaml]. *)
Theorem each_file_once (w : world text) entries :
  domains_directory w = Some entries →
  NoDup entries.*1 →
  NoDup (domain_files w).*1.
Proof.
  intros E Hnd. unfold domain_files, glob. rewrite E, fmap_app.
  apply NoDup_app. repeat split.
  - apply (sublist_NoDup _ entries.*1); [done|].
    apply fmap_sublist, sublist_filter.
  - intros name (f1 & -> & [H1 _]%list_elem_of_filter)%list_elem_of_fmap
                (f2 & E2 & [H2 _]%list_elem_of_filter)%list_elem_of_fmap.
    apply andb_true_iff in H1 as [_ H1]. apply andb_true_iff in H2 as [_ H2].
    rewrite <- E2 in H2. by destruct (yml_not_yaml _ H1 H2).
  - apply (sublist_NoDup _ entries.*1); [done|].
    apply fmap_sublist, sublist_filter.
Qed.

(** X4: a fragment that parses to a falsy value (an empty file, [{}],
    [[]], [0], [false], the empty string) is skipped: the result of
    [get_domain_file], document or exception, is the same as without the
    file. *)
Theorem falsy_fragment_skipped w w' pre f post v :
  domain_files w = pre ++ f :: post →
  domain_files w' = pre ++ post →
  tmp w = tmp w' →
  safe_load f.2 = Ok v →
  truthy v = false →
  (get_domain_file w).1 = (get_domain_file w').1 ∧
  tmp (get_domain_file w).2 = tmp (get_domain_file w').2.
Proof.
  intros Hw Hw' Et Hf Ht. apply get_domain_file_same; [|done].
  unfold merged_document.
  rewrite Hw, Hw', read_fragments_split. unfold read_fragments.
  rewrite for_each_app.
  destruct (for_each load_fragment initial_data pre) as [data|]; simpl; [|done].
  rewrite (load_fragment_parsed _ _ _ Hf). unfold merge_fragment.
  by rewrite Ht.
Qed.

(** *** When the merge succeeds *)

Lemma for_each_is_ok {S X} (I : S → Prop) (body : S → X → result S)
    (p : X → bool) s xs :
  I s → (∀ s0 y s1, I s0 → body s0 y = Ok s1 → I s1) →
  (∀ s0 y, I s0 → is_ok (body s0 y) = p y) →
  is_ok (for_each body s xs) = forallb p xs.
Proof.
  intros Hs Hpres Hp. revert s Hs.
  induction xs as [|y xs IH]; intros s Hs; simpl; [done|].
  rewrite <- (Hp s y Hs). destruct (body s y) as [s1|e] eqn:E; simpl; [|done].
  apply IH. eauto.
Qed.

Lemma set_add_is_ok s x : is_ok (set_add s x) = hashable x.
Proof.
  unfold set_add, hashable. destruct (py_key x) as [k|]; simpl; [|done].
  by destruct (set_mem k s).
Qed.

Lemma set_update_is_ok s x : is_ok (set_update s x) = mergeable_set_value x.
Proof.
  unfold set_update, mergeable_set_value. destruct (py_iter x) as [xs|]; simpl; [|done].
  apply (for_each_is_ok (fun _ => True)); auto using set_add_is_ok.
Qed.

Lemma dict_setitem_is_ok d kv : is_ok (dict_setitem d kv) = hashable kv.1.
Proof.
  unfold dict_setitem, hashable. by destruct (py_key kv.1) as [k|].
Qed.

Lemma dict_update_is_ok d x : is_ok (dict_update d x) = mergeable_dict_value x.
Proof.
  assert (∀ xs, is_ok (for_each (fun d e => p ← as_pair e; dict_setitem d p) d xs)
                = forallb pair_ok xs) as Hpairs.
  { intros xs. apply (for_each_is_ok (fun _ => True)); auto.
    intros d0 e _. unfold pair_ok. destruct (as_pair e); simpl; [|done].
    apply dict_setitem_is_ok. }
  destruct x; simpl; try done; try apply Hpairs.
  apply (for_each_is_ok (fun _ => True)); auto using dict_setitem_is_ok.
Qed.

Lemma merge_item_is_ok data kv :
  data_ok data → is_ok (merge_item data kv) = mergeable_item kv.
Proof.
  intros (ds & se & si & dt & sa & -> & _). destruct kv as [k x].
  unfold mergeable_item. simpl.
  destruct (py_key k) as [[| |name]|] eqn:Hk;
    try (unfold merge_item, data_get; simpl; by rewrite Hk).
  apply py_key_str in Hk as ->.
  case_bool_decide as Hset; [|case_bool_decide as Hdict].
  - apply list_elem_of_In in Hset. simpl in Hset.
    destruct Hset as [<-|[<-|[<-|[]]]].
    + rewrite merge_item_entities, <- (set_update_is_ok se x).
      by destruct (set_update se x).
    + rewrite merge_item_intents, <- (set_update_is_ok si x).
      by destruct (set_update si x).
    + rewrite merge_item_actions, <- (set_update_is_ok sa x).
      by destruct (set_update sa x).
  - apply list_elem_of_In in Hdict. simpl in Hdict.
    destruct Hdict as [<-|[<-|[]]].
    + rewrite merge_item_slots, <- (dict_update_is_ok ds x).
      by destruct (dict_update ds x).
    + rewrite merge_item_templates, <- (dict_update_is_ok dt x).
      by destruct (dict_update dt x).
  - assert (data_lookup (mk_data ds se si dt sa) name = None) as El.
    { apply data_lookup_None. simpl. unfold set_keys, dict_keys in *.
      rewrite !not_elem_of_cons in *. intuition auto using not_elem_of_nil. }
    unfold merge_item, data_get. cbn [fst snd py_key]. by rewrite El.
Qed.

Lemma merge_fragment_is_ok data v :
  data_ok data → is_ok (merge_fragment data v) = mergeable_fragment v.
Proof.
  intros Hd. unfold merge_fragment, mergeable_fragment.
  destruct (truthy v); [|done]. destruct v; simpl; try done.
  apply (for_each_is_ok data_ok); [done| |].
  - intros d0 kv d1. apply merge_item_ok.
  - intros d0 kv. apply merge_item_is_ok.
Qed.

Lemma load_fragment_is_ok data f :
  data_ok data → is_ok (load_fragment data f) = loadable f.
Proof.
  intros Hd. unfold load_fragment, loadable.
  destruct (safe_load f.2); simpl; [|done]. by apply merge_fragment_is_ok.
Qed.

Lemma read_fragments_ok files data :
  read_fragments files = Ok data → data_ok data.
Proof.
  apply (for_each_inv data_ok); [apply data_ok_initial|].
  intros d0 f d1. apply load_fragment_ok.
Qed.

Lemma listify_never_raises data : data_ok data → is_ok (listify data) = true.
Proof.
  intros (ds & se & si & dt & sa & -> & Hds & _ & _ & Hdt & _).
  pose proof (listify_mk_data ds se si dt sa Hds Hdt) as H.
  by destruct (listify _).
Qed.

Lemma read_fragments_is_ok files :
  is_ok (read_fragments files) = forallb loadable files.
Proof.
  apply (for_each_is_ok data_ok); [apply data_ok_initial| |].
  - intros d0 f d1. apply load_fragment_ok.
  - intros d0 f. apply load_fragment_is_ok.
Qed.

Lemma get_domain_file_is_ok w :
  is_ok (get_domain_file w).1 = is_ok (read_fragments (domain_files w)).
Proof.
  unfold get_domain_file, merged_document.
  destruct (read_fragments (domain_files w)) as [data|] eqn:E; simpl; [|done].
  pose proof (listify_never_raises data (read_fragments_ok _ _ E)) as H.
  by destruct (listify data).
Qed.

Lemma merged_document_is_ok w :
  is_ok (merged_document w) = is_ok (read_fragments (domain_files w)).
Proof.
  unfold merged_document.
  destruct (read_fragments (domain_files w)) as [data|] eqn:E; simpl; [|done].
  pose proof (listify_never_raises data (read_fragments_ok _ _ E)) as H.
  by destruct (listify data).
Qed.

(** X5: lines 60-70 raise nothing, and the merged document is handed to
    [yaml.dump], exactly when every file that is read parses and is falsy
    or a mapping whose items all merge: a recognized key with, under
    [entities], [intents] and [actions], an iterable of hashable values,
    and under [slots] and [templates], a mapping or an iterable of pairs.
    The second loop (lines 66-70) never raises. *)
Theorem succeeds_iff_all_loadable w :
  is_ok (merged_document w) = forallb loadable (domain_files w).
Proof. by rewrite merged_document_is_ok, read_fragments_is_ok. Qed.

(** *** Which exception is raised first *)

Lemma set_models_set_ok s xs : set_models s xs → set_ok s.
Proof. intros (? & ? & _). by split. Qed.

Lemma data_models_ok data items : data_models data items → data_ok data.
Proof.
  intros (ds & se & si & dt & sa & -> & Hds & Hse & Hsi & Hdt & Hsa).
  exists ds, se, si, dt, sa.
  repeat split; (by eapply set_models_set_ok) || (by eapply dict_models_ok).
Qed.

(** The files before [f] and the items before [kv] are well formed, and
    merging [kv] raises [e]. *)
Lemma first_offence w pre f post vs kvs1 kv kvs2 e :
  domain_files w = pre ++ f :: post →
  parsed pre vs →
  Forall (fun v => valid_fragment false v = true) vs →
  safe_load f.2 = Ok (YDict (kvs1 ++ kv :: kvs2)) →
  forallb (valid_item false) kvs1 = true →
  (∀ data, data_ok data → merge_item data kv = Raise e) →
  aborts w e.
Proof.
  intros Hw Hp Hv Hf Hkvs1 Hkv. apply get_domain_file_raise.
  unfold merged_document. rewrite Hw, read_fragments_split.
  destruct (read_fragments_models false pre vs Hp Hv) as (data & -> & Hd).
  simpl. rewrite (load_fragment_parsed _ _ _ Hf).
  unfold merge_fragment. simpl. rewrite bool_decide_eq_false_2; [|by destruct kvs1].
  simpl. rewrite for_each_app.
  destruct (for_each_merge_item false data _ kvs1 Hd Hkvs1) as (data1 & -> & Hd1).
  simpl. by rewrite (Hkv data1 (data_models_ok _ _ Hd1)).
Qed.

Lemma merge_item_KeyError data k x :
  data_ok data → is_Some (py_key k) → recognized k = false →
  merge_item data (k, x) = Raise KeyError.
Proof.
  intros (ds & se & si & dt & sa & -> & _) [hk Hk] Hr.
  unfold merge_item, data_get, recognized in *. cbn [fst snd].
  rewrite Hk in *. destruct hk as [| |name]; try done.
  apply bool_decide_eq_false in Hr.
  by rewrite (data_lookup_None (mk_data ds se si dt sa) name Hr).
Qed.

Lemma merge_item_non_iterable data name x :
  data_ok data → name ∈ domain_keys → non_iterable x = true →
  merge_item data (YStr name, x) = Raise TypeError.
Proof.
  intros (ds & se & si & dt & sa & -> & _) Hname Hx.
  apply list_elem_of_In in Hname. simpl in Hname.
  destruct Hname as [<-|[<-|[<-|[<-|[<-|[]]]]]];
    rewrite ?merge_item_slots, ?merge_item_entities, ?merge_item_intents,
      ?merge_item_templates, ?merge_item_actions;
    by destruct x.
Qed.

Lemma set_add_unhashable s l :
  (∃ y, y ∈ l ∧ py_key y = None) → for_each set_add s l = Raise TypeError.
Proof.
  intros (y & Hin & Hy). revert s.
  induction l as [|a l IH]; intros s; [by apply elem_of_nil in Hin|].
  simpl. apply elem_of_cons in Hin as [->|Hin].
  - assert (set_add s a = Raise TypeError) as ->; [|done].
    unfold set_add. by rewrite Hy.
  - destruct (set_add s a) as [s1|e] eqn:E; simpl; [auto|].
    unfold set_add in E. destruct (py_key a); [by destruct (set_mem _ _)|congruence].
Qed.

Lemma merge_item_unhashable data name l :
  data_ok data → name ∈ set_keys → (∃ y, y ∈ l ∧ py_key y = None) →
  merge_item data (YStr name, YList l) = Raise TypeError.
Proof.
  intros (ds & se & si & dt & sa & -> & _) Hname Hl.
  apply list_elem_of_In in Hname. simpl in Hname.
  destruct Hname as [<-|[<-|[<-|[]]]];
    rewrite ?merge_item_entities, ?merge_item_intents, ?merge_item_actions;
    unfold set_update; simpl; by rewrite set_add_unhashable.
Qed.

Lemma merge_item_string_pairs data name c s :
  data_ok data → name ∈ dict_keys →
  merge_item data (YStr name, YStr (String c s)) = Raise ValueError.
Proof.
  intros (ds & se & si & dt & sa & -> & _) Hname.
  apply list_elem_of_In in Hname. simpl in Hname.
  by destruct Hname as [<-|[<-|[]]];
    rewrite ?merge_item_slots, ?merge_item_templates.
Qed.

(** X6: an unrecognized top-level key raises [KeyError], when the files
    before its file and the items before it in the file are well formed. *)
Theorem unrecognized_key_raises_KeyError w pre f post vs kvs1 k x kvs2 :
  domain_files w = pre ++ f :: post →
  parsed pre vs →
  Forall (fun v => valid_fragment false v = true) vs →
  safe_load f.2 = Ok (YDict (kvs1 ++ (k, x) :: kvs2)) →
  forallb (valid_item false) kvs1 = true →
  is_Some (py_key k) →
  recognized k = false →
  aborts w KeyError.
Proof.
  intros Hw Hp Hv Hf Hkvs1 Hk Hr.
  apply (first_offence w pre f post vs kvs1 (k, x) kvs2); try done.
  intros data Hd. by apply merge_item_KeyError.
Qed.

(** X7: a recognized key whose value is [None], a boolean or an integer
    (for one, [intents:] with nothing after it) raises [TypeError], when
    everything before it is well formed. *)
Theorem non_iterable_value_raises_TypeError w pre f post vs kvs1 name x kvs2 :
  domain_files w = pre ++ f :: post →
  parsed pre vs →
  Forall (fun v => valid_fragment false v = true) vs →
  safe_load f.2 = Ok (YDict (kvs1 ++ (YStr name, x) :: kvs2)) →
  forallb (valid_item false) kvs1 = true →
  name ∈ domain_keys →
  non_iterable x = true →
  aborts w TypeError.
Proof.
  intros Hw Hp Hv Hf Hkvs1 Hname Hx.
  apply (first_offence w pre f post vs kvs1 (YStr name, x) kvs2); try done.
  intros data Hd. by apply merge_item_non_iterable.
Qed.

(** X8: a list under [entities], [intents] or [actions] that holds a list
    or a mapping (for one, an intent given with its properties) raises
    [TypeError], when everything before it is well formed. *)
Theorem unhashable_element_raises_TypeError w pre f post vs kvs1 name l y kvs2 :
  domain_files w = pre ++ f :: post →
  parsed pre vs →
  Forall (fun v => valid_fragment false v = true) vs →
  safe_load f.2 = Ok (YDict (kvs1 ++ (YStr name, YList l) :: kvs2)) →
  forallb (valid_item false) kvs1 = true →
  name ∈ set_keys →
  y ∈ l → hashable y = false →
  aborts w TypeError.
Proof.
  intros Hw Hp Hv Hf Hkvs1 Hname Hy Hh.
  apply (first_offence w pre f post vs kvs1 (YStr name, YList l) kvs2); try done.
  intros data Hd. apply merge_item_unhashable; [done..|].
  exists y. split; [done|]. unfold hashable in Hh.
  apply bool_decide_eq_false in Hh. destruct (py_key y); [|done].
  destruct Hh. eauto.
Qed.

(** X9: a string that is not empty under [slots] or [templates] raises
    [ValueError], when everything before it is well formed: its first
    character is not a pair. *)
Theorem string_under_mapping_key_raises_ValueError
    w pre f post vs kvs1 name s kvs2 :
  domain_files w = pre ++ f :: post →
  parsed pre vs →
  Forall (fun v => valid_fragment false v = true) vs →
  safe_load f.2 = Ok (YDict (kvs1 ++ (YStr name, YStr s) :: kvs2)) →
  forallb (valid_item false) kvs1 = true →
  name ∈ dict_keys →
  s ≠ "" →
  aborts w ValueError.
Proof.
  intros Hw Hp Hv Hf Hkvs1 Hname Hs.
  apply (first_offence w pre f post vs kvs1 (YStr name, YStr s) kvs2); try done.
  intros data Hd. destruct s as [|c s]; [done|].
  by apply merge_item_string_pairs.
Qed.

(** *** What the lists hold, whenever the merge succeeds *)

Lemma for_each_acc {S X Y} (R : S → list Y → Prop) (body : S → X → result S)
    (g : X → list Y) s xs acc s' :
  R s acc →
  (∀ s0 acc0 x s1, R s0 acc0 → body s0 x = Ok s1 → R s1 (acc0 ++ g x)) →
  for_each body s xs = Ok s' → R s' (acc ++ xs ≫= g).
Proof.
  intros Hs Hstep. revert s acc Hs.
  induction xs as [|x xs IH]; intros s acc Hs; simpl.
  - intros [= <-]. by rewrite app_nil_r.
  - destruct (body s x) as [s1|] eqn:E; simpl; [|done].
    intros H. rewrite app_assoc. eapply IH; eauto.
Qed.

Lemma bind_singletons {A} (xs : list A) : xs ≫= (fun x => [x]) = xs.
Proof. induction xs as [|x xs IH]; [done|]. by rewrite bind_cons, IH. Qed.

Lemma set_update_success s xs x s' :
  set_models s xs → set_update s x = Ok s' →
  set_models s' (xs ++ elements_of x).
Proof.
  intros Hs E. pose proof (set_update_is_ok s x) as Hok. rewrite E in Hok.
  unfold set_update, mergeable_set_value, elements_of in *.
  destruct (py_iter x) as [ys|]; simpl in *; [|done].
  destruct (for_each_set_add s xs ys Hs) as (s'' & E' & Hs').
  - apply Forall_forall. intros y Hy. symmetry in Hok.
    rewrite forallb_forall in Hok. apply list_elem_of_In, Hok in Hy.
    by apply bool_decide_eq_true in Hy.
  - congruence.
Qed.

Lemma merge_item_sets data items kv data' :
  sets_model data items → merge_item data kv = Ok data' →
  sets_model data' (items ++ [kv]).
Proof.
  intros (ds & se & si & dt & sa & -> & Hds & Hdt & Hse & Hsi & Hsa).
  destruct kv as [k x].
  destruct (data_get (mk_data ds se si dt sa) k) as [c|] eqn:Eg;
    [|unfold merge_item; simpl; by rewrite Eg].
  unfold data_get in Eg. destruct (py_key k) as [[| |name]|] eqn:Hk; try done.
  apply py_key_str in Hk as ->.
  destruct (data_lookup _ name) as [c0|] eqn:El; [|done].
  apply data_lookup_Some, list_elem_of_In in El. simpl in El.
  destruct El as [<-|[<-|[<-|[<-|[<-|[]]]]]].
  - rewrite merge_item_slots.
    destruct (dict_update ds x) as [d'|] eqn:E; simpl; [|done]. intros [= <-].
    exists d', se, si, dt, sa. split; [done|].
    rewrite !set_elems_snoc. repeat (case_decide; try done).
    rewrite !app_nil_r. eauto 10 using dict_update_ok.
  - rewrite merge_item_entities.
    destruct (set_update se x) as [s'|] eqn:E; simpl; [|done]. intros [= <-].
    exists ds, s', si, dt, sa. split; [done|].
    rewrite !set_elems_snoc. repeat (case_decide; try done).
    rewrite !app_nil_r. eauto 10 using set_update_success.
  - rewrite merge_item_intents.
    destruct (set_update si x) as [s'|] eqn:E; simpl; [|done]. intros [= <-].
    exists ds, se, s', dt, sa. split; [done|].
    rewrite !set_elems_snoc. repeat (case_decide; try done).
    rewrite !app_nil_r. eauto 10 using set_update_success.
  - rewrite merge_item_templates.
    destruct (dict_update dt x) as [d'|] eqn:E; simpl; [|done]. intros [= <-].
    exists ds, se, si, d', sa. split; [done|].
    rewrite !set_elems_snoc. repeat (case_decide; try done).
    rewrite !app_nil_r. eauto 10 using dict_update_ok.
  - rewrite merge_item_actions.
    destruct (set_update sa x) as [s'|] eqn:E; simpl; [|done]. intros [= <-].
    exists ds, se, si, dt, s'. split; [done|].
    rewrite !set_elems_snoc. repeat (case_decide; try done).
    rewrite !app_nil_r. eauto 10 using set_update_success.
Qed.

Lemma load_fragment_sets data items f data' :
  sets_model data items → load_fragment data f = Ok data' →
  sets_model data' (items ++ file_items f).
Proof.
  intros Hd. unfold load_fragment, file_items, merge_fragment.
  destruct (safe_load f.2) as [v|]; simpl; [|done].
  destruct (truthy v) eqn:Ht.
  - destruct v; simpl; try done.
    intros E. pose proof (for_each_acc sets_model merge_item (fun kv => [kv])
                            data kvs items data' Hd) as H.
    rewrite bind_singletons in H. apply H; [|done].
    intros s0 acc0 kv s1. apply merge_item_sets.
  - intros [= <-]. destruct v; simpl in *; try by rewrite app_nil_r.
    apply negb_false_iff, bool_decide_eq_true in Ht. subst.
    by rewrite app_nil_r.
Qed.

Lemma sets_model_initial : sets_model initial_data [].
Proof.
  exists [], [], [], [], []. split; [done|].
  repeat split; try constructor; try apply set_models_nil.
Qed.

Lemma read_fragments_sets files data :
  read_fragments files = Ok data → sets_model data (files ≫= file_items).
Proof.
  intros E.
  apply (for_each_acc sets_model load_fragment file_items
           initial_data files [] data sets_model_initial); [|done].
  intros s0 acc0 f s1. apply load_fragment_sets.
Qed.

Lemma merged_sets w doc name :
  merged_document w = Ok doc → name ∈ set_keys →
  ∃ l, doc_get doc name = Some (YList l) ∧
       set_models l (set_elems name (domain_files w ≫= file_items)).
Proof.
  rewrite merged_document_fmap. intros E Hname.
  destruct (read_fragments (domain_files w)) as [data|] eqn:Er; simpl in E; [|done].
  destruct (read_fragments_sets _ _ Er)
    as (ds & se & si & dt & sa & -> & Hds & Hdt & Hse & Hsi & Hsa).
  rewrite (listify_mk_data ds se si dt sa Hds Hdt) in E. injection E as <-.
  apply list_elem_of_In in Hname. simpl in Hname.
  destruct Hname as [<-|[<-|[<-|[]]]]; eexists; (split; [reflexivity|]);
    (eapply set_models_perm; [symmetry; apply set_order_perm|done]).
Qed.

Lemma set_elems_elem_inv name items x :
  x ∈ set_elems name items →
  ∃ y, (YStr name, y) ∈ items ∧ x ∈ elements_of y.
Proof.
  unfold set_elems, values_under.
  intros (y & Hx & ([k y'] & -> & [Hk Hin]%list_elem_of_filter)%list_elem_of_fmap)
    %list_elem_of_bind.
  simpl in *. apply py_key_str in Hk as ->. eauto.
Qed.

Lemma file_items_elem files kv :
  kv ∈ files ≫= file_items ↔
  ∃ f v, f ∈ files ∧ safe_load f.2 = Ok v ∧ kv ∈ fragment_items v.
Proof.
  rewrite list_elem_of_bind. unfold file_items. split.
  - intros (f & Hkv & Hf). destruct (safe_load f.2) as [v|] eqn:E;
      [eauto 6|by apply elem_of_nil in Hkv].
  - intros (f & v & Hf & E & Hkv). exists f. by rewrite E.
Qed.

(** X10: whenever [get_domain_file] succeeds, the list it writes under
    [entities], [intents] or [actions] holds exactly what the fragments
    give under that key: every element of the list was iterated from such
    a value (the elements of a list or a set, the characters of a string,
    the keys of a mapping), every iterated element is in the list up to
    Python equality, and no element is in it twice. *)
Theorem merged_lists_exact w name :
  is_ok (get_domain_file w).1 = true →
  name ∈ set_keys →
  ∃ doc l,
    produces w doc ∧
    doc_get doc name = Some (YList l) ∧
    NoDup (py_key <$> l) ∧
    (∀ x, x ∈ l →
          ∃ f v y, f ∈ domain_files w ∧ safe_load f.2 = Ok v ∧
                   (YStr name, y) ∈ fragment_items v ∧ x ∈ elements_of y) ∧
    (∀ f v y x, f ∈ domain_files w → safe_load f.2 = Ok v →
                (YStr name, y) ∈ fragment_items v → x ∈ elements_of y →
                py_key x ∈ py_key <$> l).
Proof.
  intros Hok Hname. unfold get_domain_file in Hok.
  destruct (merged_document w) as [doc|] eqn:E; [|done].
  destruct (merged_sets w doc name E Hname) as (l & Hl & Hnd & _ & Hsub & Hcov).
  exists doc, l. split; [by apply get_domain_file_ok|]. split; [done|].
  split; [done|]. split.
  - intros x Hx. apply Hsub, set_elems_elem_inv in Hx as (y & Hy & Hx).
    apply file_items_elem in Hy as (f & v & Hf & Ev & Hy). eauto 10.
  - intros f v y x Hf Ev Hy Hx. apply Hcov.
    apply (set_elems_elem _ _ y); [|done]. apply file_items_elem. eauto.
Qed.

Lemma set_models_same_keys l l' xs xs' :
  set_models l xs → set_models l' xs' → xs ≡ₚ xs' → same_keys l l'.
Proof.
  intros (_ & _ & Hsub & Hcov) (_ & _ & Hsub' & Hcov') Hp k. split.
  - intros (x & -> & Hx)%list_elem_of_fmap.
    apply Hcov'. rewrite <- Hp. auto.
  - intros (x & -> & Hx)%list_elem_of_fmap.
    apply Hcov. rewrite Hp. auto.
Qed.

Lemma set_elems_Permutation name items items' :
  items ≡ₚ items' → set_elems name items ≡ₚ set_elems name items'.
Proof. intros Hp. unfold set_elems, values_under. by rewrite Hp. Qed.

(** X11: the order in which the files are listed does not matter for
    [entities], [intents] and [actions]: when [get_domain_file] succeeds on
    a directory, it succeeds on a directory with the same files in another
    order, and the two lists written under such a key have the same
    contents as sets. *)
Theorem lists_independent_of_order w w' name :
  domain_files w ≡ₚ domain_files w' →
  is_ok (get_domain_file w).1 = true →
  name ∈ set_keys →
  ∃ doc doc' l l',
    produces w doc ∧ produces w' doc' ∧
    doc_get doc name = Some (YList l) ∧
    doc_get doc' name = Some (YList l') ∧
    same_keys l l'.
Proof.
  intros Hp Hok Hname.
  assert (is_ok (get_domain_file w').1 = true) as Hok'.
  { rewrite get_domain_file_is_ok, read_fragments_is_ok in *.
    apply forallb_forall. intros f Hf. rewrite forallb_forall in Hok.
    apply Hok. apply list_elem_of_In. rewrite Hp. by apply list_elem_of_In. }
  unfold get_domain_file in Hok, Hok'.
  destruct (merged_document w) as [doc|] eqn:E; [|done].
  destruct (merged_document w') as [doc'|] eqn:E'; [|done].
  destruct (merged_sets w doc name E Hname) as (l & Hl & Hm).
  destruct (merged_sets w' doc' name E' Hname) as (l' & Hl' & Hm').
  exists doc, doc', l, l'.
  repeat split; try done; try by apply get_domain_file_ok.
  - eapply set_models_same_keys; [done..|].
    apply set_elems_Permutation. by rewrite Hp.
  - eapply set_models_same_keys; [done..|].
    apply set_elems_Permutation. by rewrite Hp.
Qed.

(** *** What the mappings hold *)

Lemma dict_pairs_app name a b :
  dict_pairs name (a ++ b) = dict_pairs name a ++ dict_pairs name b.
Proof. unfold dict_pairs. by rewrite values_under_app, bind_app. Qed.

Lemma dict_get_reverse_None d hk :
  dict_get d hk = None → dict_get (reverse d) hk = None.
Proof.
  rewrite !dict_get_None, !fmap_reverse. intros H Hin. apply H.
  by rewrite elem_of_reverse in Hin.
Qed.

Lemma dict_get_reverse_is_Some d hk :
  is_Some (dict_get (reverse d) hk) ↔ is_Some (dict_get d hk).
Proof.
  rewrite <- !not_eq_None_Some. split; intros H E; apply H.
  - by apply dict_get_reverse_None.
  - apply dict_get_reverse_None in E. by rewrite reverse_involutive in E.
Qed.

Lemma merged_dict w vs name :
  parsed (domain_files w) vs →
  Forall (fun v => valid_fragment false v = true) vs →
  name ∈ dict_keys →
  ∃ doc m,
    merged_document w = Ok doc ∧
    doc_get doc name = Some (YDict m) ∧
    ∀ hk, dict_get m hk =
          dict_get (reverse (dict_pairs name (vs ≫= fragment_items))) hk.
Proof.
  intros Hp Hv Hname.
  destruct (merged_document_valid false w vs Hp Hv)
    as (ds & le & li & dt & la & E & Hds & _ & _ & Hdt & _).
  exists (mk_document ds le li dt la).
  apply list_elem_of_In in Hname. simpl in Hname.
  destruct Hname as [<-|[<-|[]]]; eexists; (split; [done|]);
    (split; [reflexivity|]).
  - by destruct Hds as (_ & _ & ?).
  - by destruct Hdt as (_ & _ & ?).
Qed.

Lemma valid_defines kvs name m :
  valid_fragment false (YDict kvs) = true → name ∈ dict_keys →
  dict_get kvs (HStr name) = Some (YDict m) →
  dict_pairs name kvs = m ∧ NoDup (py_key <$> m.*1).
Proof.
  intros [Hitems Hdist]%andb_true_iff Hname Hg. split.
  - unfold dict_pairs. rewrite (values_under_get _ _ _ Hdist Hg).
    simpl. by rewrite app_nil_r.
  - destruct (dict_get_elem _ _ _ Hg) as (k & Hin & Hk).
    rewrite forallb_forall in Hitems. apply list_elem_of_In, Hitems in Hin.
    apply (valid_item_dict _ name) in Hin; [|done..].
    apply andb_true_iff in Hin as [_ Hm]. by apply bool_decide_eq_true in Hm.
Qed.

Lemma not_defined_pairs name n post :
  Forall (fun v => defines name n v = false) post →
  dict_get (dict_pairs name (post ≫= fragment_items)) n = None.
Proof.
  induction 1 as [|v post Hv _ IH]; [done|].
  rewrite bind_cons, dict_pairs_app, dict_get_app.
  apply bool_decide_eq_false in Hv. rewrite <- eq_None_not_Some in Hv.
  by rewrite Hv.
Qed.

Lemma defined_pairs name n vs :
  is_Some (dict_get (dict_pairs name (vs ≫= fragment_items)) n) ↔
  Exists (fun v => defines name n v = true) vs.
Proof.
  induction vs as [|v vs IH].
  - split; [by intros [? ?]|by intros ?%Exists_nil].
  - rewrite bind_cons, dict_pairs_app, dict_get_app, Exists_cons, <- IH.
    unfold defines. rewrite bool_decide_eq_true.
    destruct (dict_get (dict_pairs name (fragment_items v)) n) as [x|].
    + split; eauto.
    + split; [eauto|]. by intros [[? ?]|?].
Qed.

Lemma kept_until_redefined_doc w pre kvs post name m n d :
  parsed (domain_files w) (pre ++ YDict kvs :: post) →
  Forall (fun v => valid_fragment false v = true) (pre ++ YDict kvs :: post) →
  name ∈ dict_keys →
  dict_get kvs (HStr name) = Some (YDict m) →
  dict_get m n = Some d →
  Forall (fun v => defines name n v = false) post →
  ∃ doc m',
    merged_document w = Ok doc ∧
    doc_get doc name = Some (YDict m') ∧
    dict_get m' n = Some d.
Proof.
  intros Hp Hv Hname Hg Hn Hpost.
  destruct (merged_dict w _ name Hp Hv Hname) as (doc & m' & E & Hdoc & Hget).
  exists doc, m'. split; [done|]. split; [done|].
  pose proof Hv as Hv'. apply Forall_app in Hv' as [_ Hv'].
  apply Forall_cons in Hv' as [Hkvs _].
  destruct (valid_defines kvs name m Hkvs Hname Hg) as [Em Hnd].
  rewrite Hget, bind_app, bind_cons. simpl.
  rewrite !dict_pairs_app, Em, !reverse_app, !dict_get_app.
  rewrite (dict_get_reverse_None _ _ (not_defined_pairs name n post Hpost)).
  by rewrite dict_get_reverse, Hn.
Qed.

(** X12: under [slots] and [templates] no name is lost and none is
    invented: for well-formed fragments, the merged mapping defines a name
    exactly when some fragment defines it under that key. *)
Theorem merged_names_exact w vs name n :
  parsed (domain_files w) vs →
  Forall (fun v => valid_fragment false v = true) vs →
  name ∈ dict_keys →
  ∃ doc m,
    produces w doc ∧
    doc_get doc name = Some (YDict m) ∧
    (is_Some (dict_get m n) ↔ Exists (fun v => defines name n v = true) vs).
Proof.
  intros Hp Hv Hname.
  destruct (merged_dict w vs name Hp Hv Hname) as (doc & m & E & Hdoc & Hget).
  exists doc, m. split; [by apply get_domain_file_ok|]. split; [done|].
  by rewrite Hget, dict_get_reverse_is_Some, defined_pairs.
Qed.

(** X13: a definition is kept until a later fragment redefines the name:
    for well-formed fragments, what a fragment defines for [n] under
    [slots] or [templates] is what the merged document holds for [n] when
    no fragment merged after it defines [n] under that key. *)
Theorem definition_kept_until_redefined w pre kvs post name m n d :
  parsed (domain_files w) (pre ++ YDict kvs :: post) →
  Forall (fun v => valid_fragment false v = true) (pre ++ YDict kvs :: post) →
  name ∈ dict_keys →
  dict_get kvs (HStr name) = Some (YDict m) →
  dict_get m n = Some d →
  Forall (fun v => defines name n v = false) post →
  ∃ doc m',
    produces w doc ∧
    doc_get doc name = Some (YDict m') ∧
    dict_get m' n = Some d.
Proof.
  intros Hp Hv Hname Hg Hn Hpost.
  destruct (kept_until_redefined_doc w pre kvs post name m n d)
    as (doc & m' & E & ?); try done.
  exists doc, m'. split; [by apply get_domain_file_ok|done].
Qed.

(** X3: every [*.yml] file is merged before every [*.yaml] file, whatever
    the order of the directory: for well-formed fragments, what the last
    [*.yaml] file of the listing defines under [slots] or [templates] is
    what the merged document holds, also when a [*.yml] file that defines
    the same name is listed after it. *)
Theorem yaml_file_merged_last w es1 f es2 vs kvs name m n d :
  domains_directory w = Some (es1 ++ f :: es2) →
  is_hidden f.1 = false →
  ends_with ".yaml" f.1 = true →
  glob (Some es2) ".yaml" = [] →
  parsed (domain_files w) vs →
  Forall (fun v => valid_fragment false v = true) vs →
  safe_load f.2 = Ok (YDict kvs) →
  name ∈ dict_keys →
  dict_get kvs (HStr name) = Some (YDict m) →
  dict_get m n = Some d →
  ∃ doc m',
    produces w doc ∧
    doc_get doc name = Some (YDict m') ∧
    dict_get m' n = Some d.
Proof.
  intros Hdir Hvis Hext Hlast Hp Hv Hf Hname Hg Hn.
  assert (∃ files, domain_files w = files ++ [f]) as [files Hfiles].
  { exists (glob (Some (es1 ++ f :: es2)) ".yml" ++ glob (Some es1) ".yaml").
    unfold domain_files. rewrite Hdir, <- app_assoc. f_equal.
    unfold glob in *. rewrite filter_app, filter_cons, Hlast.
    rewrite decide_True; [done|]. by rewrite Hvis, Hext. }
  rewrite Hfiles in Hp.
  apply Forall2_app_inv_l in Hp as (vs1 & vs2 & Hp1 & Hp2 & ->).
  apply Forall2_cons_inv_l in Hp2 as (v & ? & Hfv & ->%Forall2_nil_inv_l & ->).
  simpl in Hfv. rewrite Hf in Hfv. injection Hfv as <-.
  destruct (kept_until_redefined_doc w vs1 kvs [] name m n d)
    as (doc & m' & E & ?); try done.
  { rewrite Hfiles. apply Forall2_app; [done|]. by repeat constructor. }
  exists doc, m'. split; [by apply get_domain_file_ok|done].
Qed.

(** *** The temporary files *)

Lemma string_app_length a t :
  String.length (a +:+ t) = (String.length a + String.length t)%nat.
Proof. induction a as [|c a IH]; simpl; [done|]. by rewrite IH. Qed.

Lemma string_app_inj_r a b t : a +:+ t = b +:+ t → a = b.
Proof.
  revert b. induction a as [|c a IH]; intros [|c' b] H; simpl in *.
  - done.
  - apply (f_equal String.length) in H. simpl in H.
    rewrite !string_app_length in H. simpl in H. lia.
  - apply (f_equal String.length) in H. simpl in H.
    rewrite !string_app_length in H. simpl in H. lia.
  - injection H as -> H. f_equal. auto.
Qed.

Lemma tmp_path_inj r1 r2 : tmp_path r1 = tmp_path r2 → r1 = r2.
Proof.
  unfold tmp_path. intros H. apply (inj (String.app _)) in H.
  by apply string_app_inj_r in H.
Qed.

(** X14: every call, whether it returns or raises, adds exactly one file
    to the temporary directory and removes none: the files that were there
    are still there, with their content. *)
Theorem call_adds_one_temporary_file w :
  tmp w ⊆ tmp (get_domain_file w).2 ∧
  size (tmp (get_domain_file w).2) = S (size (tmp w)).
Proof.
  unfold get_domain_file.
  destruct (merged_document w); simpl; rewrite ?insert_insert_eq; split;
    (apply insert_subseteq, fresh_tmp) || (apply map_size_insert_None, fresh_tmp).
Qed.

(** X15: the temporary file is not reused and not removed: after a call
    that returned a path, the next call leaves the file of that path as it
    was, whether it returns or raises, and a path that it returns is
    another one. *)
Theorem second_call_writes_another_file w path1 w1 :
  get_domain_file w = (Ok path1, w1) →
  ∃ random1,
    path1 = tmp_path random1 ∧
    is_Some (tmp w1 !! random1) ∧
    tmp (get_domain_file w1).2 !! random1 = tmp w1 !! random1 ∧
    ∀ path2, (get_domain_file w1).1 = Ok path2 → path2 ≠ path1.
Proof.
  intros H. unfold get_domain_file in H.
  destruct (merged_document w) as [doc|] eqn:E; [|done].
  simpl in H. injection H as <- <-.
  set (r1 := fresh (dom (tmp w))).
  set (w1 := World (domains_directory w)
               (<[r1 := dump doc]> (<[r1 := empty_text]> (tmp w)))).
  set (r2 := fresh (dom (tmp w1))).
  assert (tmp w1 !! r1 = Some (dump doc)) as Hr1 by apply lookup_insert_eq.
  assert (r2 ≠ r1) as Hne.
  { intros Heq. pose proof (fresh_tmp w1) as Hf. fold r2 in Hf.
    rewrite Heq in Hf. congruence. }
  exists r1. split; [done|]. split; [by rewrite Hr1|]. split.
  - unfold get_domain_file. fold r2.
    destruct (merged_document w1); simpl; rewrite ?insert_insert_eq;
      by rewrite lookup_insert_ne.
  - unfold get_domain_file. fold r2.
    destruct (merged_document w1); simpl; [|done].
    intros path2 [= <-] Hp. by apply tmp_path_inj in Hp.
Qed.

End Merge.

(** ** Properties of the paths of a [Training] object *)

Lemma prefix_app a b : String.prefix a (a +:+ b) = true.
Proof.
  induction a as [|c a IH]; simpl; [by destruct b|].
  by destruct (Ascii.ascii_dec c c).
Qed.

Lemma prefix_cons c s c' s' :
  String.prefix (String c s) (String c' s') =
    if Ascii.ascii_dec c c' then String.prefix s s' else false.
Proof. reflexivity. Qed.

Lemma string_app_cons c a b : String c a +:+ b = String c (a +:+ b).
Proof. reflexivity. Qed.

Lemma prefix_nil s : String.prefix "" s = true.
Proof. by destruct s. Qed.

Lemma ends_with_refl s : ends_with s s = true.
Proof. destruct s; [done|]. by rewrite ends_with_cons, String.eqb_refl. Qed.

Lemma ends_with_app_r x a y :
  ends_with x y = true → ends_with x (a +:+ y) = true.
Proof.
  intros H. induction a as [|c a IH]; simpl; [done|].
  rewrite IH. apply orb_true_r.
Qed.

Lemma os_path_join_absolute a b :
  String.prefix "/" b = true → os_path_join a b = b.
Proof. intros H. unfold os_path_join. by rewrite H. Qed.

Lemma os_path_join_relative a b :
  String.prefix "/" b = false →
  String.prefix a (os_path_join a b) = true ∧
  ends_with b (os_path_join a b) = true.
Proof.
  intros H. unfold os_path_join. rewrite H.
  destruct (String.eqb a "" || ends_with "/" a); split;
    auto using prefix_app, ends_with_app_r, ends_with_refl.
Qed.

Lemma os_path_join_stays_absolute a b :
  String.prefix "/" a = true → String.prefix "/" (os_path_join a b) = true.
Proof.
  intros Ha. unfold os_path_join.
  destruct (String.prefix "/" b) eqn:Hb; [done|].
  destruct a as [|c a]; [done|]. rewrite prefix_cons in Ha.
  destruct (Ascii.ascii_dec "/" c) as [<-|]; [|done].
  destruct (String.eqb _ _ || ends_with _ _);
    rewrite string_app_cons, prefix_cons; destruct (Ascii.ascii_dec "/" "/"); try done;
    apply prefix_nil.
Qed.

(** X16: each of the six paths of a [Training] object is the argument
    itself when the argument is absolute, whatever the directory of the
    module; otherwise it starts with the directory of the module and ends
    with the argument. *)
Theorem init_paths base a1 a2 a3 a4 a5 a6 :
  Forall2
    (fun arg path =>
       (String.prefix "/" arg = true → path = arg) ∧
       (String.prefix "/" arg = false →
        String.prefix base path = true ∧ ends_with arg path = true))
    [a1; a2; a3; a4; a5; a6]
    (configured_paths (init base a1 a2 a3 a4 a5 a6)).
Proof.
  unfold configured_paths, init. simpl.
  repeat (constructor;
          [split; [apply os_path_join_absolute|apply os_path_join_relative]|]).
  constructor.
Qed.

(** X17: the directory of the module is absolute, and so are the six
    paths of a [Training] object, whatever the arguments: none depends on
    the working directory. *)
Theorem init_paths_absolute base a1 a2 a3 a4 a5 a6 :
  String.prefix "/" base = true →
  Forall (fun path => String.prefix "/" path = true)
    (configured_paths (init base a1 a2 a3 a4 a5 a6)).
Proof.
  intros H. unfold configured_paths, init. simpl.
  repeat (constructor; [by apply os_path_join_stays_absolute|]).
  constructor.
Qed.


(** ** The model at work on the sample directories *)

Example merge_pair :
  merged_document toy_load toy_order w_pair =
    Ok (mk_document [] [] [YStr "c"; YStr "b"; YStr "a"] [] []).
Proof. reflexivity. Qed.

Example merge_slots :
  merged_document toy_load toy_order w_slots =
    Ok (mk_document
          [(YStr "location", YDict [(YStr "type", YStr "categorical")]);
           (YStr "count", YDict [(YStr "type", YStr "float")])]
          [] [YStr "greet"] [] []).
Proof. reflexivity. Qed.

Example merge_misspelt :
  merged_document toy_load toy_order w_misspelt = Raise KeyError.
Proof. reflexivity. Qed.

Example merge_malformed :
  merged_document toy_load toy_order w_malformed = Raise YAMLError.
Proof. reflexivity. Qed.

Example merge_list :
  merged_document toy_load toy_order w_list = Raise AttributeError.
Proof. reflexivity. Qed.

Example merge_null :
  merged_document toy_load toy_order (dir [("n.yml", Doc intents_null)])
    = Raise TypeError.
Proof. reflexivity. Qed.

Example merge_nested :
  merged_document toy_load toy_order (dir [("n.yml", Doc intents_nested)])
    = Raise TypeError.
Proof. reflexivity. Qed.

Example merge_slots_string :
  merged_document toy_load toy_order (dir [("s.yml", Doc slots_string)])
    = Raise ValueError.
Proof. reflexivity. Qed.

Example merge_slots_pairs :
  merged_document toy_load toy_order (dir [("p.yaml", Doc slots_pairs)])
    = Ok (mk_document [(YStr "a", YInt 1); (YStr "b", YStr "c")] [] [] [] []).
Proof. reflexivity. Qed.

Example merge_true_one :
  merged_document toy_load toy_order (dir [("e.yml", Doc entities_true_one)])
    = Ok (mk_document [] [YStr "1"; YBool true] [] [] []).
Proof. reflexivity. Qed.

Example merge_hey :
  merged_document toy_load toy_order w_string =
    Ok (mk_document []
          [] [YStr "y"; YStr "e"; YStr "h"; YStr "b"; YStr "a"] [] []).
Proof. reflexivity. Qed.

Lemma toy_order_perm s : toy_order s ≡ₚ s.
Proof. apply reverse_Permutation. Qed.

Lemma no_fragments_empty_document_witness :
  produces toy_empty toy_load Doc toy_order w_none (mk_document [] [] [] [] []).
Proof.
  apply (no_fragments_empty_document toy_empty toy_load Doc toy_order toy_order_perm).
  right. reflexivity.
Defined.


Lemma intents_merged_by_union_witness :
  ∃ ds le li dt la,
    produces toy_empty toy_load Doc toy_order w_pair (mk_document ds le li dt la) ∧
    li ≡ₚ [YStr "a"; YStr "b"; YStr "c"].
Proof.
  destruct (intents_merged_by_union toy_empty toy_load Doc toy_order toy_order_perm
              w_pair ("a.yml", Doc intents_ab) ("b.yml", Doc intents_bc)
              _ _ [YStr "a"; YStr "b"] [YStr "b"; YStr "c"]
              eq_refl eq_refl eq_refl eq_refl eq_refl eq_refl eq_refl)
    as (ds & le & li & dt & la & Hp & Hnd & Hsub & Hcov).
  exists ds, le, li, dt, la. split; [exact Hp|].
  apply NoDup_Permutation.
  - by apply NoDup_fmap_1 in Hnd.
  - apply NoDup_fmap_1 with (f := py_key). by apply (bool_decide_unpack _).
  - intros x. split.
    + intros Hx. apply Hsub in Hx. rewrite !elem_of_cons, !elem_of_nil in *. tauto.
    + rewrite !elem_of_cons, elem_of_nil.
      intros [->|[->|[->|[]]]]; apply covered_string, Hcov;
        rewrite !elem_of_cons; tauto.
Defined.

Lemma later_definition_wins_witness :
  ∃ doc m,
    produces toy_empty toy_load Doc toy_order w_slots doc ∧
    doc_get doc "slots" = Some (YDict m) ∧
    dict_get m (HStr "location") = Some (YDict [(YStr "type", YStr "categorical")]).
Proof.
  apply (later_definition_wins toy_empty toy_load Doc toy_order toy_order_perm
           w_slots [slot_text]
           [(YStr "slots",
              YDict [(YStr "location", YDict [(YStr "type", YStr "categorical")]);
                     (YStr "count", YDict [(YStr "type", YStr "float")])])]
           "slots"
           [(YStr "location", YDict [(YStr "type", YStr "categorical")]);
            (YStr "count", YDict [(YStr "type", YStr "float")])]).
  - repeat constructor.
  - repeat constructor.
  - by apply (bool_decide_unpack _).
  - reflexivity.
  - reflexivity.
Defined.

Lemma string_merged_by_character_witness :
  ∃ doc l,
    produces toy_empty toy_load Doc toy_order w_string doc ∧
    doc_get doc "intents" = Some (YList l) ∧
    NoDup l ∧
    ∀ c, c ∈ [YStr "h"; YStr "e"; YStr "y"] → c ∈ l.
Proof.
  apply (string_merged_by_character toy_empty toy_load Doc toy_order toy_order_perm
           w_string [intents_ab; intents_string] intents_string "intents" "hey").
  - repeat constructor.
  - repeat constructor.
  - by apply (bool_decide_unpack _).
  - right. left.
  - left.
Defined.

Lemma unrecognized_key_aborts_witness :
  ∃ e, aborts toy_empty toy_load Doc toy_order w_misspelt e.
Proof.
  apply (unrecognized_key_aborts toy_empty toy_load Doc toy_order
           w_misspelt ("m.yml", Doc misspelt_key)
           [(YStr "intent", YList [YStr "a"])] (YStr "intent") (YList [YStr "a"])).
  - right. left.
  - reflexivity.
  - left.
  - reflexivity.
Defined.

Lemma malformed_fragment_aborts_witness :
  ∃ e, aborts toy_empty toy_load Doc toy_order w_malformed e ∧
       (is_ok (read_fragments toy_load [("a.yml", Doc intents_ab)]) = true →
        e = YAMLError).
Proof.
  apply (malformed_fragment_aborts toy_empty toy_load Doc toy_order
           w_malformed [("a.yml", Doc intents_ab)] ("bad.yml", Garbage)
           [("b.yml", Doc intents_bc)]).
  - reflexivity.
  - reflexivity.
Defined.

Lemma truthy_non_mapping_aborts_witness :
  ∃ e, aborts toy_empty toy_load Doc toy_order w_list e ∧
       (is_ok (read_fragments toy_load []) = true → e = AttributeError).
Proof.
  apply (truthy_non_mapping_aborts toy_empty toy_load Doc toy_order
           w_list [] ("l.yml", Doc (YList [YStr "a"])) [] (YList [YStr "a"])).
  - reflexivity.
  - reflexivity.
  - reflexivity.
  - discriminate.
Defined.

(** C8 as stated fails: a file that holds the scalar [0] is not empty and
    is not a mapping, and it is skipped like an empty file;
    [get_domain_file] returns the path of the document it wrote. *)
Lemma zero_fragment_is_skipped :
  ("zero.yml", Doc (YInt 0)) ∈ domain_files w_zero ∧
  toy_load (Doc (YInt 0)) = Ok (YInt 0) ∧
  empty_value (YInt 0) = false ∧
  (∀ kvs, YInt 0 ≠ YDict kvs) ∧
  get_domain_file toy_empty toy_load Doc toy_order w_zero =
    (Ok "/tmp/domain-0.yml",
     World (domains_directory w_zero)
       {[ "0" := Doc (mk_document [] [] [] [] []) ]}).
Proof.
  split; [left|]. split; [reflexivity|]. split; [reflexivity|].
  split; [discriminate|]. vm_compute. reflexivity.
Qed.

Lemma failure_leaves_empty_file_witness :
  ∃ random,
    tmp w_malformed !! random = None ∧
    tmp (get_domain_file toy_empty toy_load Doc toy_order w_malformed).2 !! random
      = Some toy_empty.
Proof.
  apply (failure_leaves_empty_file toy_empty toy_load Doc toy_order
           w_malformed YAMLError).
  reflexivity.
Defined.

(** ** The further properties on the sample directories *)

Lemma unmatched_entry_ignored_witness :
  (get_domain_file toy_empty toy_load Doc toy_order
     (World (Some ([("a.yml", Doc intents_ab)] ++ ("notes.txt", Garbage)
                     :: [("b.yml", Doc intents_bc)])) ∅)).1 =
    (get_domain_file toy_empty toy_load Doc toy_order
       (World (Some ([("a.yml", Doc intents_ab)] ++ [("b.yml", Doc intents_bc)])) ∅)).1 ∧
  tmp (get_domain_file toy_empty toy_load Doc toy_order
         (World (Some ([("a.yml", Doc intents_ab)] ++ ("notes.txt", Garbage)
                         :: [("b.yml", Doc intents_bc)])) ∅)).2 =
    tmp (get_domain_file toy_empty toy_load Doc toy_order
           (World (Some ([("a.yml", Doc intents_ab)] ++ [("b.yml", Doc intents_bc)])) ∅)).2.
Proof.
  apply (unmatched_entry_ignored toy_empty toy_load Doc toy_order
           [("a.yml", Doc intents_ab)] ("notes.txt", Garbage)
           [("b.yml", Doc intents_bc)] ∅).
  reflexivity.
Defined.

Lemma each_file_once_witness : NoDup (domain_files w_slots).*1.
Proof.
  apply (each_file_once w_slots
           [("later.yaml", Doc slot_categorical); ("first.yml", Doc slot_text)]).
  - reflexivity.
  - by apply (bool_decide_unpack _).
Defined.

Lemma yaml_file_merged_last_witness :
  ∃ doc m',
    produces toy_empty toy_load Doc toy_order w_slots doc ∧
    doc_get doc "slots" = Some (YDict m') ∧
    dict_get m' (HStr "location")
      = Some (YDict [(YStr "type", YStr "categorical")]).
Proof.
  apply (yaml_file_merged_last toy_empty toy_load Doc toy_order toy_order_perm
           w_slots [] ("later.yaml", Doc slot_categorical)
           [("first.yml", Doc slot_text)] [slot_text; slot_categorical]
           (fragment_items slot_categorical) "slots"
           [(YStr "location", YDict [(YStr "type", YStr "categorical")]);
            (YStr "count", YDict [(YStr "type", YStr "float")])]).
  - reflexivity.
  - reflexivity.
  - reflexivity.
  - reflexivity.
  - repeat constructor.
  - repeat constructor.
  - reflexivity.
  - by apply (bool_decide_unpack _).
  - reflexivity.
  - reflexivity.
Defined.

Lemma falsy_fragment_skipped_witness :
  (get_domain_file toy_empty toy_load Doc toy_order w_with_empty).1 =
    (get_domain_file toy_empty toy_load Doc toy_order w_pair).1 ∧
  tmp (get_domain_file toy_empty toy_load Doc toy_order w_with_empty).2 =
    tmp (get_domain_file toy_empty toy_load Doc toy_order w_pair).2.
Proof.
  apply (falsy_fragment_skipped toy_empty toy_load Doc toy_order
           w_with_empty w_pair [("a.yml", Doc intents_ab)]
           ("empty.yml", Doc YNone) [("b.yml", Doc intents_bc)] YNone);
    reflexivity.
Defined.

Lemma unrecognized_key_raises_KeyError_witness :
  aborts toy_empty toy_load Doc toy_order w_misspelt KeyError.
Proof.
  apply (unrecognized_key_raises_KeyError toy_empty toy_load Doc toy_order
           w_misspelt [("a.yml", Doc intents_ab)] ("m.yml", Doc misspelt_key) []
           [intents_ab] [] (YStr "intent") (YList [YStr "a"]) []).
  - reflexivity.
  - repeat constructor.
  - repeat constructor.
  - reflexivity.
  - reflexivity.
  - by eexists.
  - reflexivity.
Defined.

Lemma non_iterable_value_raises_TypeError_witness :
  aborts toy_empty toy_load Doc toy_order (dir [("n.yml", Doc intents_null)])
    TypeError.
Proof.
  apply (non_iterable_value_raises_TypeError toy_empty toy_load Doc toy_order
           (dir [("n.yml", Doc intents_null)]) [] ("n.yml", Doc intents_null) []
           [] [] "intents" YNone []).
  - reflexivity.
  - constructor.
  - constructor.
  - reflexivity.
  - reflexivity.
  - by apply (bool_decide_unpack _).
  - reflexivity.
Defined.

Lemma unhashable_element_raises_TypeError_witness :
  aborts toy_empty toy_load Doc toy_order (dir [("n.yml", Doc intents_nested)])
    TypeError.
Proof.
  apply (unhashable_element_raises_TypeError toy_empty toy_load Doc toy_order
           (dir [("n.yml", Doc intents_nested)]) [] ("n.yml", Doc intents_nested) []
           [] [] "intents" [YStr "bye"; YDict [(YStr "greet", YNone)]]
           (YDict [(YStr "greet", YNone)]) []).
  - reflexivity.
  - constructor.
  - constructor.
  - reflexivity.
  - reflexivity.
  - by apply (bool_decide_unpack _).
  - right. left.
  - reflexivity.
Defined.

Lemma string_under_mapping_key_raises_ValueError_witness :
  aborts toy_empty toy_load Doc toy_order (dir [("s.yml", Doc slots_string)])
    ValueError.
Proof.
  apply (string_under_mapping_key_raises_ValueError toy_empty toy_load Doc
           toy_order (dir [("s.yml", Doc slots_string)]) []
           ("s.yml", Doc slots_string) [] [] [] "slots" "ab" []).
  - reflexivity.
  - constructor.
  - constructor.
  - reflexivity.
  - reflexivity.
  - by apply (bool_decide_unpack _).
  - discriminate.
Defined.

Lemma merged_lists_exact_witness :
  ∃ doc l,
    produces toy_empty toy_load Doc toy_order w_string doc ∧
    doc_get doc "intents" = Some (YList l) ∧
    NoDup (py_key <$> l) ∧
    (∀ x, x ∈ l →
          ∃ f v y, f ∈ domain_files w_string ∧ toy_load f.2 = Ok v ∧
                   (YStr "intents", y) ∈ fragment_items v ∧ x ∈ elements_of y) ∧
    (∀ f v y x, f ∈ domain_files w_string → toy_load f.2 = Ok v →
                (YStr "intents", y) ∈ fragment_items v → x ∈ elements_of y →
                py_key x ∈ py_key <$> l).
Proof.
  apply (merged_lists_exact toy_empty toy_load Doc toy_order toy_order_perm
           w_string "intents").
  - reflexivity.
  - by apply (bool_decide_unpack _).
Defined.

Lemma lists_independent_of_order_witness :
  ∃ doc doc' l l',
    produces toy_empty toy_load Doc toy_order w_pair doc ∧
    produces toy_empty toy_load Doc toy_order w_pair_swapped doc' ∧
    doc_get doc "intents" = Some (YList l) ∧
    doc_get doc' "intents" = Some (YList l') ∧
    same_keys l l'.
Proof.
  apply (lists_independent_of_order toy_empty toy_load Doc toy_order
           toy_order_perm w_pair w_pair_swapped "intents").
  - apply perm_swap.
  - reflexivity.
  - by apply (bool_decide_unpack _).
Defined.

Lemma merged_names_exact_witness :
  ∃ doc m,
    produces toy_empty toy_load Doc toy_order w_slots doc ∧
    doc_get doc "slots" = Some (YDict m) ∧
    (is_Some (dict_get m (HStr "count")) ↔
     Exists (fun v => defines "slots" (HStr "count") v = true)
       [slot_text; slot_categorical]).
Proof.
  apply (merged_names_exact toy_empty toy_load Doc toy_order toy_order_perm
           w_slots [slot_text; slot_categorical] "slots" (HStr "count")).
  - repeat constructor.
  - repeat constructor.
  - by apply (bool_decide_unpack _).
Defined.

Lemma definition_kept_until_redefined_witness :
  ∃ doc m',
    produces toy_empty toy_load Doc toy_order w_three doc ∧
    doc_get doc "slots" = Some (YDict m') ∧
    dict_get m' (HStr "location")
      = Some (YDict [(YStr "type", YStr "categorical")]).
Proof.
  apply (definition_kept_until_redefined toy_empty toy_load Doc toy_order
           toy_order_perm w_three [slot_text] (fragment_items slot_categorical)
           [intents_ab] "slots"
           [(YStr "location", YDict [(YStr "type", YStr "categorical")]);
            (YStr "count", YDict [(YStr "type", YStr "float")])]).
  - repeat constructor.
  - repeat constructor.
  - by apply (bool_decide_unpack _).
  - reflexivity.
  - reflexivity.
  - repeat constructor.
Defined.

Lemma second_call_writes_another_file_witness :
  ∃ random1,
    "/tmp/domain-0.yml" = tmp_path random1 ∧
    is_Some (tmp (get_domain_file toy_empty toy_load Doc toy_order w_pair).2
               !! random1) ∧
    tmp (get_domain_file toy_empty toy_load Doc toy_order
           (get_domain_file toy_empty toy_load Doc toy_order w_pair).2).2
      !! random1
    = tmp (get_domain_file toy_empty toy_load Doc toy_order w_pair).2 !! random1 ∧
    ∀ path2,
      (get_domain_file toy_empty toy_load Doc toy_order
         (get_domain_file toy_empty toy_load Doc toy_order w_pair).2).1 = Ok path2 →
      path2 ≠ "/tmp/domain-0.yml".
Proof.
  apply (second_call_writes_another_file toy_empty toy_load Doc toy_order
           w_pair "/tmp/domain-0.yml"
           (get_domain_file toy_empty toy_load Doc toy_order w_pair).2).
  vm_compute. reflexivity.
Defined.

Lemma init_paths_absolute_witness :
  Forall (fun path => String.prefix "/" path = true)
    (configured_paths (init_default "/srv/bot")).
Proof. apply (init_paths_absolute "/srv/bot"). reflexivity. Defined.

Example init_default_paths :
  configured_paths (init_default "/srv/bot") =
    [ "/srv/bot/actions/domains"; "/srv/bot/models/dialogue";
      "/srv/bot/models/nlu"; "/srv/bot/actions/dialogue_training_stories";
      "/srv/bot/data/nlu_training_data.json"; "/srv/bot/configs/nlu_config.yml" ].
Proof. reflexivity. Qed.

Example init_absolute_argument :
  self_domains_directory
    (init "/srv/bot" "/etc/bot/domains" "m" "n" "d" "t" "c") = "/etc/bot/domains".
Proof. reflexivity. Qed.
